(** * tzgo: the contract and big-map queries of the RPC client

    A shallow embedding of [rpc/contracts.go]: every method of the client
    formats one relative path, hands it to the transport [Get] together with
    a decode target, and maps what the transport left in the target to a
    typed result.  The transport, the Micheline types and the address types
    are collaborators of the file; they are kept abstract and the client is
    verified against every one of them.

    Layout:
    - [strconv], [fmt]: the two Go library routines the file calls
      ([strconv.ParseInt] and [fmt.Sprintf]);
    - [rpc]: block references, the transport interface, the client methods;
    - [json]: a transport that decodes a JSON body the way the transport's
      contract describes;
    - the theorems. *)

From Stdlib Require Import ZArith String Ascii DecimalString DecimalZ Lia.
From stdpp Require Import base option list strings gmap.

#[local] Set Warnings "-register-all".

Local Open Scope string_scope.
Local Open Scope Z_scope.

(** ** Go values *)

(** A Go [error] is [None] when nil. *)
Definition nilable (A : Type) : Type := option A.

(** A Go slice: [None] is the nil slice, [Some []] an empty slice that has
    been allocated ([make(T, 0)]). *)
Definition slice (A : Type) : Type := option (list A).

Definition make0 {A : Type} : slice A := Some [].

Definition is_nil {A : Type} (v : option A) : bool :=
  match v with
  | None => true
  | Some _ => false
  end.

(** Signed and unsigned 64-bit wrap-around. *)
Definition wrap_u64 (x : Z) : Z := x mod 2 ^ 64.
Definition wrap_i64 (x : Z) : Z := (x + 2 ^ 63) mod 2 ^ 64 - 2 ^ 63.

Definition minInt64 : Z := - 2 ^ 63.
Definition maxInt64 : Z := 2 ^ 63 - 1.
Definition maxUint64 : Z := 2 ^ 64 - 1.

Definition in_int64 (x : Z) : Prop := minInt64 <= x <= maxInt64.

(** ** strconv *)

Module strconv.

Inductive ErrKind : Type := ErrSyntax | ErrRange.

(** [*strconv.NumError]. *)
Record NumError : Type := mkNumError {
  Func : string;
  Num : string;
  Err : ErrKind
}.

Definition syntaxError (fn str : string) : NumError := mkNumError fn str ErrSyntax.
Definition rangeError (fn str : string) : NumError := mkNumError fn str ErrRange.

Definition byte (c : ascii) : Z := Z.of_N (N_of_ascii c).

(** [lower(c)] is [c | ('x' - 'X')]. *)
Definition lower (c : Z) : Z := Z.lor c 32.

(** The [switch] of the digit loop: the value of a digit or a letter, and
    nothing for any other byte.  (The underscore case needs [base == 0].) *)
Definition digit (c : ascii) : option Z :=
  let b := byte c in
  if (48 <=? b) && (b <=? 57) then Some (b - 48)
  else if (97 <=? lower b) && (lower b <=? 122) then Some (lower b - 97 + 10)
  else None.

(** The client calls [ParseInt(bal, 10, 64)] only; the routines are
    embedded at that base and bit size. *)
Definition base : Z := 10.
Definition bitSize : Z := 64.

(** [maxUint64/10 + 1]: the least [n] with [n * 10 > maxUint64]. *)
Definition cutoff : Z := maxUint64 / base + 1.

(** [uint64(1)<<uint(bitSize) - 1], in 64-bit arithmetic. *)
Definition maxVal : Z := wrap_u64 (wrap_u64 (Z.shiftl 1 bitSize) - 1).

(** The loop [for _, c := range []byte(s)] of [ParseUint], from the
    accumulator [n]. *)
Fixpoint ParseUint_loop (s0 s : string) (n : Z) : Z * nilable NumError :=
  match s with
  | EmptyString => (n, None)
  | String c rest =>
      match digit c with
      | None => (0, Some (syntaxError "ParseUint" s0))
      | Some d =>
          if base <=? d then (0, Some (syntaxError "ParseUint" s0))
          else if cutoff <=? n then (maxVal, Some (rangeError "ParseUint" s0))
          else
            let n' := wrap_u64 (n * base) in
            let n1 := wrap_u64 (n' + d) in
            if (n1 <? n') || (maxVal <? n1)
            then (maxVal, Some (rangeError "ParseUint" s0))
            else ParseUint_loop s0 rest n1
      end
  end.

Definition ParseUint (s : string) : Z * nilable NumError :=
  match s with
  | EmptyString => (0, Some (syntaxError "ParseUint" s))
  | _ => ParseUint_loop s s 0
  end.

(** What [ParseInt] makes of the sign it picked off and of the result of
    [ParseUint]: the statements of [ParseInt] that follow the call. *)
Definition signed (s0 : string) (neg : bool) (r : Z * nilable NumError)
  : Z * nilable NumError :=
  let '(un, err) := r in
  match err with
  | Some {| Err := ErrSyntax |} => (0, Some (syntaxError "ParseInt" s0))
  | _ =>
      let cutoff := wrap_u64 (Z.shiftl 1 (bitSize - 1)) in
      if negb neg && (cutoff <=? un)
      then (wrap_i64 (cutoff - 1), Some (rangeError "ParseInt" s0))
      else if neg && (cutoff <? un)
      then (wrap_i64 (- wrap_i64 cutoff), Some (rangeError "ParseInt" s0))
      else
        let n := wrap_i64 un in
        let n := if neg then wrap_i64 (- n) else n in
        (n, None)
  end.

(** [ParseInt(s, 10, 64)]. *)
Definition ParseInt (s : string) : Z * nilable NumError :=
  match s with
  | EmptyString => (0, Some (syntaxError "ParseInt" s))
  | String c0 rest =>
      let s0 := s in
      let '(neg, s) :=
        if Ascii.eqb c0 "+" then (false, rest)
        else if Ascii.eqb c0 "-" then (true, rest)
        else (false, s) in
      signed s0 neg (ParseUint s)
  end.

(** [FormatInt(i, 10)], which is also what the verb [%d] prints. *)
Definition FormatInt (i : Z) : string := NilZero.string_of_int (Z.to_int i).

(** *** What a decimal numeral denotes

    The reading of a numeral that [ParseInt] is compared with: an optional
    sign, then one decimal digit or more, read most significant digit
    first; no bound on the value. *)

Definition is_digit (c : ascii) : bool := (48 <=? byte c) && (byte c <=? 57).

Fixpoint digits (s : string) : bool :=
  match s with
  | EmptyString => true
  | String c rest => is_digit c && digits rest
  end.

Fixpoint decimal_from (n : Z) (s : string) : Z :=
  match s with
  | EmptyString => n
  | String c rest => decimal_from (10 * n + (byte c - 48)) rest
  end.

Definition numeral (s : string) : option Z :=
  match s with
  | EmptyString => None
  | String _ _ => if digits s then Some (decimal_from 0 s) else None
  end.

Definition signed_numeral (s : string) : option Z :=
  match s with
  | EmptyString => None
  | String c rest =>
      if Ascii.eqb c "+" then numeral rest
      else if Ascii.eqb c "-" then Z.opp <$> numeral rest
      else numeral s
  end.

(** Whether the string starts with a minus sign. *)
Definition negative (s : string) : bool :=
  match s with
  | EmptyString => false
  | String c _ => Ascii.eqb c "-"
  end.

(** A value confined to the 64-bit signed range: the value itself, or the
    bound on its side together with a range error. *)
Definition clamp (s0 : string) (v : Z) : Z * nilable NumError :=
  if (minInt64 <=? v) && (v <=? maxInt64) then (v, None)
  else (if v <? 0 then minInt64 else maxInt64, Some (rangeError "ParseInt" s0)).

End strconv.

(** ** fmt *)

Module fmt.

(** [fmt.Stringer]. *)
Class Stringer (A : Type) : Type := to_String : A -> string.

(** An operand of [Sprintf] as the verbs see it: a [Stringer] is seen
    through its [String()] method, an integer as it is. *)
Inductive operand : Type :=
| stringer (s : string)
| int64 (i : Z).

Definition s {A : Type} `{Stringer A} (a : A) : operand := stringer (to_String a).
Definition d (i : Z) : operand := int64 i.

(** One verb applied to one operand.  The call sites of the client only
    pair [%s] with a [Stringer] and [%d] with an [int64]; the other pairs
    are rendered with the bad-verb marker of [fmt], without the Go type
    name of a [Stringer] operand. *)
Definition verb (v : ascii) (x : operand) : string :=
  match x with
  | stringer str =>
      if Ascii.eqb v "s" || Ascii.eqb v "v" then str
      else "%!" +:+ String v ("(stringer=" +:+ str +:+ ")")
  | int64 i =>
      if Ascii.eqb v "d" || Ascii.eqb v "v" then strconv.FormatInt i
      else "%!" +:+ String v ("(int64=" +:+ strconv.FormatInt i +:+ ")")
  end.

(** [Sprintf] for formats made of plain text and flagless verbs.  Operands
    left over at the end of the format are dropped here (Go appends an
    [EXTRA] marker); no call site of the client has any. *)
Fixpoint Sprintf (format : string) (a : list operand) : string :=
  match format with
  | EmptyString => EmptyString
  | String "%"%char EmptyString => "%!(NOVERB)"
  | String "%"%char (String v rest) =>
      if Ascii.eqb v "%" then String "%" (Sprintf rest a)
      else
        match a with
        | [] => "%!" +:+ String v ("(MISSING)" +:+ Sprintf rest [])
        | x :: a' => verb v x +:+ Sprintf rest a'
        end
  | String c rest => String c (Sprintf rest a)
  end.

End fmt.

(** ** The packages the client imports *)

Module tezos.

(** [tezos.Address] and [tezos.ExprHash]: opaque values that print their
    canonical string form. *)
Class Types : Type := {
  Address : Type;
  Address_String :: fmt.Stringer Address;
  ExprHash : Type;
  ExprHash_String :: fmt.Stringer ExprHash
}.

End tezos.

Module micheline.

(** [micheline.Prim] with its zero value [Prim{}] and the sentinel
    [InvalidPrim]; [micheline.Script] with the value [NewScript()] points to. *)
Class Types : Type := {
  Prim : Type;
  Prim_zero : Prim;
  InvalidPrim : Prim;
  Script : Type;
  NewScript : Script
}.

End micheline.

(** ** rpc *)

Module rpc.

Import tezos micheline.

(** Modelled from the spec: the type [BlockID] and its values [Head] and
    [BlockLevel] are declared outside [contracts.go].  A block reference is
    the symbolic tag "head", a height, or a hash; in a path it is rendered as
    the literal "head", the integer height, or the hash string. *)
Inductive BlockID : Type :=
| Head
| BlockLevel (height : Z)
| BlockHash (hash : string).

#[export] Instance BlockID_String : fmt.Stringer BlockID :=
  fun id =>
    match id with
    | Head => "head"
    | BlockLevel height => strconv.FormatInt height
    | BlockHash hash => hash
    end.

(** A Go map: [None] is the nil map. *)
Definition gomap (V : Type) : Type := option (gmap string V).

Section Types.

Context `{tezos.Types} `{micheline.Types}.

(** [type Contracts []tezos.Address] *)
Definition Contracts : Type := slice Address.

(** The local type [eptype] of [GetContractEntrypoints]. *)
Record eptype : Type := mk_eptype {
  Entrypoints : gomap Prim
}.

(** [BigmapInfo]; the fields are tagged [key_type], [value_type] and
    [total_bytes,string] for the JSON decoder. *)
Record BigmapInfo : Type := mkBigmapInfo {
  KeyType : Prim;
  ValueType : Prim;
  TotalBytes : Z
}.

(** The pointers the client hands to [Get] as decode targets. *)
Inductive Target : Type -> Type :=
| ptr_Contracts : Target Contracts
| ptr_string : Target string
| ptr_Script : Target Script
| ptr_Prim : Target Prim
| ptr_eptype : Target eptype
| ptr_ExprHashes : Target (slice ExprHash)
| ptr_BigmapInfo : Target BigmapInfo.

End Types.

(** A Go [error] value that is not nil: one made by the transport, or the
    [*NumError] of [strconv]. *)
Inductive error (F : Type) : Type :=
| TransportError (e : F)
| NumError (e : strconv.NumError).

Arguments TransportError {F} e.
Arguments NumError {F} e.

(** The transport behind [c.Get(ctx, path, out) error]: given the context,
    the relative path and the value the target holds, it leaves a value in
    the target and returns an error or nil.  [World] is whatever the answer
    depends on and the call may change (the node, the connection). *)
Class Transport `{tezos.Types} `{micheline.Types} : Type := {
  Ctx : Type;
  Failure : Type;
  World : Type;
  transport : forall T : Type,
    Target T -> Ctx -> string -> T -> World -> (T * nilable (error Failure)) * World
}.

Section Client.

Context `{Transport}.

(** One GET as the transport saw it. *)
Record Request : Type := mkRequest {
  req_ctx : Ctx;
  req_path : string
}.

(** The state a call runs in: the world behind the transport and the
    requests issued so far. *)
Record State : Type := mkState {
  world : World;
  sent : list Request
}.

Definition M (A : Type) : Type := State -> A * State.

#[export] Instance M_ret : MRet M := fun A a st => (a, st).

#[export] Instance M_bind : MBind M :=
  fun A B f m st => let '(a, st') := m st in f a st'.

(** [c.Get(ctx, u, out)]: one call of the transport, recorded. *)
Definition Get {T : Type} (ctx : Ctx) (u : string) (out : Target T) (v : T)
  : M (T * nilable (error Failure)) :=
  fun st =>
    let '(r, w) := transport T out ctx u v (world st) in
    (r, mkState w (sent st ++ [mkRequest ctx u])).

Definition GetContracts (ctx : Ctx) (id : BlockID)
  : M (Contracts * nilable (error Failure)) :=
  let contracts : Contracts := make0 in
  let u := fmt.Sprintf "chains/main/blocks/%s/context/contracts" [fmt.s id] in
  '(contracts, err) ← Get ctx u ptr_Contracts contracts;
  match err with
  | Some err => mret (None, Some err)
  | None => mret (contracts, None)
  end.

Definition GetContractsHeight (ctx : Ctx) (height : Z)
  : M (Contracts * nilable (error Failure)) :=
  GetContracts ctx (BlockLevel height).

Definition GetContractBalance (ctx : Ctx) (addr : Address) (id : BlockID)
  : M (Z * nilable (error Failure)) :=
  let u := fmt.Sprintf "chains/main/blocks/%s/context/contracts/%s/balance"
             [fmt.s id; fmt.s addr] in
  let bal : string := "" in
  '(bal, err) ← Get ctx u ptr_string bal;
  match err with
  | Some err => mret (0, Some err)
  | None =>
      let '(n, err) := strconv.ParseInt bal in
      mret (n, NumError <$> err)
  end.

Definition GetContractBalanceHeight (ctx : Ctx) (addr : Address) (height : Z)
  : M (Z * nilable (error Failure)) :=
  GetContractBalance ctx addr (BlockLevel height).

Definition GetContractScript (ctx : Ctx) (addr : Address)
  : M (nilable Script * nilable (error Failure)) :=
  let u := fmt.Sprintf "chains/main/blocks/head/context/contracts/%s/script"
             [fmt.s addr] in
  let s := NewScript in
  '(s, err) ← Get ctx u ptr_Script s;
  match err with
  | Some err => mret (None, Some err)
  | None => mret (Some s, None)
  end.

Definition GetContractStorage (ctx : Ctx) (addr : Address) (id : BlockID)
  : M (Prim * nilable (error Failure)) :=
  let u := fmt.Sprintf "chains/main/blocks/%s/context/contracts/%s/storage"
             [fmt.s id; fmt.s addr] in
  let prim := Prim_zero in
  '(prim, err) ← Get ctx u ptr_Prim prim;
  match err with
  | Some err => mret (InvalidPrim, Some err)
  | None => mret (prim, None)
  end.

Definition GetContractStorageHeight (ctx : Ctx) (addr : Address) (height : Z)
  : M (Prim * nilable (error Failure)) :=
  GetContractStorage ctx addr (BlockLevel height).

Definition GetContractEntrypoints (ctx : Ctx) (addr : Address)
  : M (gomap Prim * nilable (error Failure)) :=
  let u := fmt.Sprintf "chains/main/blocks/head/context/contracts/%s/entrypoints"
             [fmt.s addr] in
  let eps := mk_eptype None in
  '(eps, err) ← Get ctx u ptr_eptype eps;
  match err with
  | Some err => mret (None, Some err)
  | None => mret (Entrypoints eps, None)
  end.

Definition GetBigmapKeys (ctx : Ctx) (bigmap : Z) (id : BlockID)
  : M (slice ExprHash * nilable (error Failure)) :=
  let u := fmt.Sprintf
             "chains/main/blocks/%s/context/raw/json/big_maps/index/%d/contents"
             [fmt.s id; fmt.d bigmap] in
  let hashes : slice ExprHash := make0 in
  '(hashes, err) ← Get ctx u ptr_ExprHashes hashes;
  match err with
  | Some err => mret (None, Some err)
  | None => mret (hashes, None)
  end.

Definition GetActiveBigmapKeys (ctx : Ctx) (bigmap : Z)
  : M (slice ExprHash * nilable (error Failure)) :=
  GetBigmapKeys ctx bigmap Head.

Definition GetBigmapValue (ctx : Ctx) (bigmap : Z) (hash : ExprHash) (id : BlockID)
  : M (Prim * nilable (error Failure)) :=
  let u := fmt.Sprintf
             "chains/main/blocks/%s/context/raw/json/big_maps/index/%d/contents/%s"
             [fmt.s id; fmt.d bigmap; fmt.s hash] in
  let prim := Prim_zero in
  '(prim, err) ← Get ctx u ptr_Prim prim;
  match err with
  | Some err => mret (InvalidPrim, Some err)
  | None => mret (prim, None)
  end.

Definition GetActiveBigmapValue (ctx : Ctx) (bigmap : Z) (hash : ExprHash)
  : M (Prim * nilable (error Failure)) :=
  GetBigmapValue ctx bigmap hash Head.

Definition GetBigmapValueHeight (ctx : Ctx) (bigmap : Z) (hash : ExprHash) (height : Z)
  : M (Prim * nilable (error Failure)) :=
  GetBigmapValue ctx bigmap hash (BlockLevel height).

Definition GetBigmapInfo (ctx : Ctx) (bigmap : Z) (id : BlockID)
  : M (nilable BigmapInfo * nilable (error Failure)) :=
  let u := fmt.Sprintf "chains/main/blocks/%s/context/raw/json/big_maps/index/%d"
             [fmt.s id; fmt.d bigmap] in
  let info := mkBigmapInfo Prim_zero Prim_zero 0 in
  '(info, err) ← Get ctx u ptr_BigmapInfo info;
  match err with
  | Some err => mret (None, Some err)
  | None => mret (Some info, None)
  end.

Definition GetActiveBigmapInfo (ctx : Ctx) (bigmap : Z)
  : M (nilable BigmapInfo * nilable (error Failure)) :=
  GetBigmapInfo ctx bigmap Head.

End Client.

(** *** The surface of the client, operation by operation *)

Section Surface.

Context `{tezos.Types} `{micheline.Types}.

(** A call of one method with its arguments (the context apart), indexed by
    the type of the first result. *)
Inductive Op : Type -> Type :=
| Call_GetContracts (id : BlockID) : Op Contracts
| Call_GetContractsHeight (height : Z) : Op Contracts
| Call_GetContractBalance (addr : Address) (id : BlockID) : Op Z
| Call_GetContractBalanceHeight (addr : Address) (height : Z) : Op Z
| Call_GetContractScript (addr : Address) : Op (nilable Script)
| Call_GetContractStorage (addr : Address) (id : BlockID) : Op Prim
| Call_GetContractStorageHeight (addr : Address) (height : Z) : Op Prim
| Call_GetContractEntrypoints (addr : Address) : Op (gomap Prim)
| Call_GetBigmapKeys (bigmap : Z) (id : BlockID) : Op (slice ExprHash)
| Call_GetActiveBigmapKeys (bigmap : Z) : Op (slice ExprHash)
| Call_GetBigmapValue (bigmap : Z) (hash : ExprHash) (id : BlockID) : Op Prim
| Call_GetActiveBigmapValue (bigmap : Z) (hash : ExprHash) : Op Prim
| Call_GetBigmapValueHeight (bigmap : Z) (hash : ExprHash) (height : Z) : Op Prim
| Call_GetBigmapInfo (bigmap : Z) (id : BlockID) : Op (nilable BigmapInfo)
| Call_GetActiveBigmapInfo (bigmap : Z) : Op (nilable BigmapInfo).

(** The path table of the interface description, with [{block}] the
    rendering of the block reference, [{addr}] the canonical address string,
    [{bigmap}] the decimal identifier and [{hash}] the key hash. *)
Definition path_contracts (block : string) : string :=
  "chains/main/blocks/" +:+ block +:+ "/context/contracts".

Definition path_balance (block addr : string) : string :=
  "chains/main/blocks/" +:+ block +:+ "/context/contracts/" +:+ addr +:+ "/balance".

Definition path_script (addr : string) : string :=
  "chains/main/blocks/head/context/contracts/" +:+ addr +:+ "/script".

Definition path_storage (block addr : string) : string :=
  "chains/main/blocks/" +:+ block +:+ "/context/contracts/" +:+ addr +:+ "/storage".

Definition path_entrypoints (addr : string) : string :=
  "chains/main/blocks/head/context/contracts/" +:+ addr +:+ "/entrypoints".

Definition path_bigmap_keys (block bigmap : string) : string :=
  "chains/main/blocks/" +:+ block +:+ "/context/raw/json/big_maps/index/"
    +:+ bigmap +:+ "/contents".

Definition path_bigmap_value (block bigmap hash : string) : string :=
  "chains/main/blocks/" +:+ block +:+ "/context/raw/json/big_maps/index/"
    +:+ bigmap +:+ "/contents/" +:+ hash.

Definition path_bigmap_info (block bigmap : string) : string :=
  "chains/main/blocks/" +:+ block +:+ "/context/raw/json/big_maps/index/" +:+ bigmap.

(** The block segment the description gives each operation: the rendering
    of its block reference, the height of a height-relative method, and the
    literal "head" of a head-relative one. *)
Definition spec_block {R : Type} (op : Op R) : string :=
  match op with
  | Call_GetContracts id
  | Call_GetContractBalance _ id
  | Call_GetContractStorage _ id
  | Call_GetBigmapKeys _ id
  | Call_GetBigmapValue _ _ id
  | Call_GetBigmapInfo _ id => fmt.to_String id
  | Call_GetContractsHeight height
  | Call_GetContractBalanceHeight _ height
  | Call_GetContractStorageHeight _ height
  | Call_GetBigmapValueHeight _ _ height => strconv.FormatInt height
  | Call_GetContractScript _
  | Call_GetContractEntrypoints _
  | Call_GetActiveBigmapKeys _
  | Call_GetActiveBigmapValue _ _
  | Call_GetActiveBigmapInfo _ => "head"
  end.

Definition spec_path {R : Type} (op : Op R) : string :=
  let block := spec_block op in
  match op with
  | Call_GetContracts _ | Call_GetContractsHeight _ => path_contracts block
  | Call_GetContractBalance addr _ | Call_GetContractBalanceHeight addr _ =>
      path_balance block (fmt.to_String addr)
  | Call_GetContractScript addr => path_script (fmt.to_String addr)
  | Call_GetContractStorage addr _ | Call_GetContractStorageHeight addr _ =>
      path_storage block (fmt.to_String addr)
  | Call_GetContractEntrypoints addr => path_entrypoints (fmt.to_String addr)
  | Call_GetBigmapKeys bigmap _ | Call_GetActiveBigmapKeys bigmap =>
      path_bigmap_keys block (strconv.FormatInt bigmap)
  | Call_GetBigmapValue bigmap hash _
  | Call_GetActiveBigmapValue bigmap hash
  | Call_GetBigmapValueHeight bigmap hash _ =>
      path_bigmap_value block (strconv.FormatInt bigmap) (fmt.to_String hash)
  | Call_GetBigmapInfo bigmap _ | Call_GetActiveBigmapInfo bigmap =>
      path_bigmap_info block (strconv.FormatInt bigmap)
  end.

(** Whether a method is one of the head-relative ones. *)
Definition head_relative {R : Type} (op : Op R) : bool :=
  match op with
  | Call_GetContractScript _
  | Call_GetContractEntrypoints _
  | Call_GetActiveBigmapKeys _
  | Call_GetActiveBigmapValue _ _
  | Call_GetActiveBigmapInfo _ => true
  | _ => false
  end.

(** The result a failed operation is described to return: nil list, nil
    pointer, nil map, zero integer, or the sentinel [Prim]. *)
Definition zero_value {R : Type} (op : Op R) : R :=
  match op in Op R return R with
  | Call_GetContracts _ | Call_GetContractsHeight _ => None
  | Call_GetContractBalance _ _ | Call_GetContractBalanceHeight _ _ => 0
  | Call_GetContractScript _ => None
  | Call_GetContractStorage _ _ | Call_GetContractStorageHeight _ _ => InvalidPrim
  | Call_GetContractEntrypoints _ => None
  | Call_GetBigmapKeys _ _ | Call_GetActiveBigmapKeys _ => None
  | Call_GetBigmapValue _ _ _
  | Call_GetActiveBigmapValue _ _
  | Call_GetBigmapValueHeight _ _ _ => InvalidPrim
  | Call_GetBigmapInfo _ _ | Call_GetActiveBigmapInfo _ => None
  end.

(** The decode target of an operation: the pointer it passes and the value
    the pointer holds before the call. *)
Record Outparam : Type := mkOutparam {
  out_type : Type;
  out_ptr : Target out_type;
  out_init : out_type
}.

Definition outparam {R : Type} (op : Op R) : Outparam :=
  match op with
  | Call_GetContracts _ | Call_GetContractsHeight _ =>
      mkOutparam Contracts ptr_Contracts make0
  | Call_GetContractBalance _ _ | Call_GetContractBalanceHeight _ _ =>
      mkOutparam string ptr_string ""
  | Call_GetContractScript _ => mkOutparam Script ptr_Script NewScript
  | Call_GetContractStorage _ _ | Call_GetContractStorageHeight _ _ =>
      mkOutparam Prim ptr_Prim Prim_zero
  | Call_GetContractEntrypoints _ => mkOutparam eptype ptr_eptype (mk_eptype None)
  | Call_GetBigmapKeys _ _ | Call_GetActiveBigmapKeys _ =>
      mkOutparam (slice ExprHash) ptr_ExprHashes make0
  | Call_GetBigmapValue _ _ _
  | Call_GetActiveBigmapValue _ _
  | Call_GetBigmapValueHeight _ _ _ => mkOutparam Prim ptr_Prim Prim_zero
  | Call_GetBigmapInfo _ _ | Call_GetActiveBigmapInfo _ =>
      mkOutparam BigmapInfo ptr_BigmapInfo (mkBigmapInfo Prim_zero Prim_zero 0)
  end.

End Surface.

Section Dispatch.

Context `{Transport}.

(** The method an operation names, applied to its arguments. *)
Definition call {R : Type} (op : Op R) (ctx : Ctx)
  : M (R * nilable (error Failure)) :=
  match op in Op R return M (R * nilable (error Failure)) with
  | Call_GetContracts id => GetContracts ctx id
  | Call_GetContractsHeight height => GetContractsHeight ctx height
  | Call_GetContractBalance addr id => GetContractBalance ctx addr id
  | Call_GetContractBalanceHeight addr height => GetContractBalanceHeight ctx addr height
  | Call_GetContractScript addr => GetContractScript ctx addr
  | Call_GetContractStorage addr id => GetContractStorage ctx addr id
  | Call_GetContractStorageHeight addr height => GetContractStorageHeight ctx addr height
  | Call_GetContractEntrypoints addr => GetContractEntrypoints ctx addr
  | Call_GetBigmapKeys bigmap id => GetBigmapKeys ctx bigmap id
  | Call_GetActiveBigmapKeys bigmap => GetActiveBigmapKeys ctx bigmap
  | Call_GetBigmapValue bigmap hash id => GetBigmapValue ctx bigmap hash id
  | Call_GetActiveBigmapValue bigmap hash => GetActiveBigmapValue ctx bigmap hash
  | Call_GetBigmapValueHeight bigmap hash height =>
      GetBigmapValueHeight ctx bigmap hash height
  | Call_GetBigmapInfo bigmap id => GetBigmapInfo ctx bigmap id
  | Call_GetActiveBigmapInfo bigmap => GetActiveBigmapInfo ctx bigmap
  end.

(** The answer of the transport to the request the description gives an
    operation, in the world [w]: the value left in the target, the error,
    and the world after. *)
Definition answer {R : Type} (op : Op R) (ctx : Ctx) (w : World)
  : (out_type (outparam op) * nilable (error Failure)) * World :=
  transport _ (out_ptr (outparam op)) ctx (spec_path op) (out_init (outparam op)) w.

(** One round trip from a state: the transport is called once with the
    target [out] holding [v], the call is recorded, and [k] maps what the
    transport left and returned to the results of the method. *)
Definition round_trip {T R : Type} (out : Target T) (v : T) (ctx : Ctx) (u : string)
    (k : T -> nilable (error Failure) -> R * nilable (error Failure)) (st : State)
  : (R * nilable (error Failure)) * State :=
  let '((v', err), w) := transport T out ctx u v (world st) in
  (k v' err, mkState w (sent st ++ [mkRequest ctx u])).

(** The secondary parse of the balance methods fails on the string [bal]. *)
Definition parse_fails (bal : string) : bool :=
  negb (is_nil (strconv.ParseInt bal).2).

(** The secondary parse of an operation fails on what the transport left
    in its target: only the balance methods have one. *)
Definition secondary_parse_fails {R : Type} (op : Op R)
  : out_type (outparam op) -> bool :=
  match op as o return out_type (outparam o) -> bool with
  | Call_GetContractBalance _ _ => parse_fails
  | Call_GetContractBalanceHeight _ _ => parse_fails
  | _ => fun _ => false
  end.


(** A transport honours cancellation, for a predicate [done] that tells
    when the context is cancelled or past its deadline before the response
    is complete: such a call returns an error. *)
Definition honours_cancellation (done : Ctx -> World -> bool) : Prop :=
  forall (T : Type) (out : Target T) (ctx : Ctx) (u : string) (v : T) (w : World),
    done ctx w = true -> is_Some (transport T out ctx u v w).1.2.

End Dispatch.

End rpc.

(** ** A transport that decodes JSON *)

Module json.

Import tezos micheline rpc.

(** A parsed JSON text.  A number keeps its literal. *)
Inductive Value : Type :=
| Null
| Bool (b : bool)
| Number (literal : string)
| Str (s : string)
| Array (elems : list Value)
| Object (members : list (string * Value)).

(** What the collaborating packages bring to decoding: how an address, a
    key hash, a [Prim] and a [Script] take a JSON value (from the value the
    target holds; [None] is an error), and the zero address and hash a slice
    grows by. *)
Class Unmarshalers `{tezos.Types} `{micheline.Types} : Type := {
  Address_zero : Address;
  Address_Unmarshal : Value -> Address -> option Address;
  ExprHash_zero : ExprHash;
  ExprHash_Unmarshal : Value -> ExprHash -> option ExprHash;
  Prim_UnmarshalJSON : Value -> Prim -> option Prim;
  Script_UnmarshalJSON : Value -> Script -> option Script
}.

(** The node behind the transport: a GET of a relative path fails (network
    error, status that is not a success, body that is not JSON) or yields
    the parsed body. *)
Class Node : Type := {
  node_Ctx : Type;
  node_Failure : Type;
  node_World : Type;
  fetch : node_Ctx -> string -> node_World -> (node_Failure + Value) * node_World
}.

Inductive failure (F : Type) : Type :=
| FetchFailed (f : F)
| DecodeFailed.

Arguments FetchFailed {F} f.
Arguments DecodeFailed {F}.

Section Decode.

Context `{Unmarshalers}.

(** Into a [string]: a JSON string is stored, [null] changes nothing. *)
Definition decode_string (v : Value) (old : string) : option string :=
  match v with
  | Str s => Some s
  | Null => Some old
  | _ => None
  end.

(** The elements of a JSON array, one by one, each into the element the
    slice already has at that index or into a zero element. *)
Fixpoint decode_elems {A : Type} (dec : Value -> A -> option A) (zero : A)
    (vs : list Value) (old : list A) : option (list A) :=
  match vs with
  | [] => Some []
  | v :: vs' =>
      a ← dec v (hd zero old);
      l ← decode_elems dec zero vs' (tl old);
      Some (a :: l)
  end.

(** Into a slice: [null] sets the slice to nil; an array yields a slice
    that is not nil, whatever its length. *)
Definition decode_slice {A : Type} (dec : Value -> A -> option A) (zero : A)
    (v : Value) (old : slice A) : option (slice A) :=
  match v with
  | Null => Some None
  | Array vs => l ← decode_elems dec zero vs (default [] old); Some (Some l)
  | _ => None
  end.

(** The value a JSON object gives a key: that of its last member of that
    name. *)
Fixpoint member (k : string) (ms : list (string * Value)) : option Value :=
  match ms with
  | [] => None
  | (k', v) :: ms' =>
      match member k ms' with
      | Some v' => Some v'
      | None => if String.eqb k k' then Some v else None
      end
  end.

(** The members of a JSON object into a map, in order: each value is
    decoded into a zero [Prim] and stored under its key. *)
Fixpoint decode_entries (ms : list (string * Value)) (m : gmap string Prim)
  : option (gmap string Prim) :=
  match ms with
  | [] => Some m
  | (k, v) :: ms' =>
      p ← Prim_UnmarshalJSON v Prim_zero;
      decode_entries ms' (<[k := p]> m)
  end.

(** Into a [map[string]Prim]: [null] sets the map to nil; an object fills
    the map the target holds, or a new one when that is nil. *)
Definition decode_map (v : Value) (old : gomap Prim) : option (gomap Prim) :=
  match v with
  | Null => Some None
  | Object ms => m ← decode_entries ms (default ∅ old); Some (Some m)
  | _ => None
  end.

(** Into an [int64] tagged [,string]: the value must be a JSON string
    that holds a number, which [strconv.ParseInt] reads; [null], quoted or
    not, changes nothing; a JSON number that is not quoted is refused. *)
Definition decode_int64_quoted (v : Value) (old : Z) : option Z :=
  match v with
  | Null => Some old
  | Str q =>
      if String.eqb q "null" then Some old
      else
        match q with
        | EmptyString => None
        | String c _ =>
            if Ascii.eqb c "-" || (48 <=? strconv.byte c) && (strconv.byte c <=? 57)
            then
              match strconv.ParseInt q with
              | (n, None) => Some n
              | (_, Some _) => None
              end
            else None
        end
  | _ => None
  end.

(** The members of a JSON object into a struct, in order: [field] stores
    one member into the field its key names and skips a key that names
    none.  Keys are compared exactly (the decoder of Go also accepts a key
    that differs from the tag in letter case). *)
Fixpoint decode_members {S : Type} (field : string -> Value -> S -> option S)
    (ms : list (string * Value)) (old : S) : option S :=
  match ms with
  | [] => Some old
  | (k, v) :: ms' => s ← field k v old; decode_members field ms' s
  end.

Definition decode_struct {S : Type} (field : string -> Value -> S -> option S)
    (v : Value) (old : S) : option S :=
  match v with
  | Null => Some old
  | Object ms => decode_members field ms old
  | _ => None
  end.

(** [Entrypoints map[string]micheline.Prim `json:"entrypoints"`] *)
Definition eptype_field (k : string) (v : Value) (e : eptype) : option eptype :=
  if String.eqb k "entrypoints"
  then m ← decode_map v (Entrypoints e); Some (mk_eptype m)
  else Some e.

(** The three tagged fields of [BigmapInfo]. *)
Definition BigmapInfo_field (k : string) (v : Value) (i : BigmapInfo)
  : option BigmapInfo :=
  if String.eqb k "key_type"
  then p ← Prim_UnmarshalJSON v (KeyType i);
       Some (mkBigmapInfo p (ValueType i) (TotalBytes i))
  else if String.eqb k "value_type"
  then p ← Prim_UnmarshalJSON v (ValueType i);
       Some (mkBigmapInfo (KeyType i) p (TotalBytes i))
  else if String.eqb k "total_bytes"
  then n ← decode_int64_quoted v (TotalBytes i);
       Some (mkBigmapInfo (KeyType i) (ValueType i) n)
  else Some i.

(** Decoding a body into a target of the client. *)
Definition decode {T : Type} (out : Target T) : Value -> T -> option T :=
  match out in Target T return Value -> T -> option T with
  | ptr_Contracts => decode_slice Address_Unmarshal Address_zero
  | ptr_string => decode_string
  | ptr_Script => Script_UnmarshalJSON
  | ptr_Prim => Prim_UnmarshalJSON
  | ptr_eptype => decode_struct eptype_field
  | ptr_ExprHashes => decode_slice ExprHash_Unmarshal ExprHash_zero
  | ptr_BigmapInfo => decode_struct BigmapInfo_field
  end.

Context `{Node}.

(** Modelled from the spec: the method [Get] of the client is declared
    outside [contracts.go].  It performs an HTTP GET against the configured
    endpoint, treats a status that is not a success as an error, and decodes
    the JSON response body into [out]; decoding follows [encoding/json],
    which the struct tags of [contracts.go] address.  What a failed decode
    leaves in the target is not modelled, the target is taken as it was: no
    method of the client reads it after an error. *)
#[export] Instance HTTP : Transport := {|
  Ctx := node_Ctx;
  Failure := failure node_Failure;
  World := node_World;
  transport T out ctx u v w :=
    let '(r, w') := fetch ctx u w in
    match r with
    | inl f => ((v, Some (TransportError (FetchFailed f))), w')
    | inr body =>
        match decode out body v with
        | Some v' => ((v', None), w')
        | None => ((v, Some (TransportError DecodeFailed)), w')
        end
    end
|}.

End Decode.

End json.

(** ** A sample node

    A concrete instance of every collaborator, to run the client on: an
    address and a key hash are their canonical strings, a [Prim] and a
    [Script] hold the JSON tree they were decoded from ([None] is the zero
    value, which is also the sentinel) and refuse a JSON [null]; a context
    is cancelled or live, and the node serves one body per path. *)

Module Sample.

Import tezos micheline rpc json.

#[export] Instance tezos_types : tezos.Types := {|
  Address := string;
  Address_String := fun a => a;
  ExprHash := string;
  ExprHash_String := fun h => h
|}.

#[export] Instance micheline_types : micheline.Types := {|
  Prim := option Value;
  Prim_zero := None;
  InvalidPrim := None;
  Script := option Value;
  NewScript := None
|}.

Definition unmarshal_text (v : Value) (old : string) : option string :=
  match v with
  | Str s => Some s
  | Null => Some old
  | _ => None
  end.

Definition unmarshal_tree (v : Value) (old : option Value) : option (option Value) :=
  match v with
  | Null => None
  | _ => Some (Some v)
  end.

#[export] Instance unmarshalers : Unmarshalers := {|
  Address_zero := "";
  Address_Unmarshal := unmarshal_text;
  ExprHash_zero := "";
  ExprHash_Unmarshal := unmarshal_text;
  Prim_UnmarshalJSON := unmarshal_tree;
  Script_UnmarshalJSON := unmarshal_tree
|}.

Inductive context : Type := Live | Cancelled.

Definition done (ctx : context) : bool :=
  match ctx with
  | Live => false
  | Cancelled => true
  end.

(** The node answers a live context with the body it has for the path and
    a cancelled one with an error. *)
#[export] Instance node : Node := {|
  node_Ctx := context;
  node_Failure := string;
  node_World := string -> option Value;
  fetch ctx u w :=
    if done ctx then (inl "context canceled", w)
    else
      match w u with
      | Some body => (inr body, w)
      | None => (inl "404 Not Found", w)
      end
|}.

(** A node that has the same body for every path. *)
Definition serving (body : Value) : string -> option Value := fun _ => Some body.

(** The client over the sample node. *)
Definition client : Transport := HTTP.

Definition start (w : string -> option Value) : State := mkState w [].

End Sample.

(** * Theorems *)

(** ** The library routines on concrete inputs *)

Example ParseInt_12345 : strconv.ParseInt "12345" = (12345, None).
Proof. reflexivity. Qed.

Example ParseInt_plus_sign : strconv.ParseInt "+7" = (7, None).
Proof. reflexivity. Qed.

Example ParseInt_least : strconv.ParseInt "-9223372036854775808" = (minInt64, None).
Proof. reflexivity. Qed.

Example ParseInt_letters :
  strconv.ParseInt "12a" = (0, Some (strconv.syntaxError "ParseInt" "12a")).
Proof. reflexivity. Qed.

Example ParseInt_sign_only :
  strconv.ParseInt "-" = (0, Some (strconv.syntaxError "ParseInt" "-")).
Proof. reflexivity. Qed.

Example ParseInt_empty :
  strconv.ParseInt "" = (0, Some (strconv.syntaxError "ParseInt" "")).
Proof. reflexivity. Qed.

Example FormatInt_negative : strconv.FormatInt (-42) = "-42".
Proof. reflexivity. Qed.

Example Sprintf_two_verbs :
  fmt.Sprintf "big_maps/index/%d/contents/%s" [fmt.d 42; fmt.stringer "expr"]
  = "big_maps/index/42/contents/expr".
Proof. reflexivity. Qed.

Example BlockLevel_String : rpc.BlockID_String (rpc.BlockLevel 100) = "100".
Proof. reflexivity. Qed.

(** ** The numerals [ParseInt] reads *)

Section ParseInt.

Import strconv.

Lemma digit_of_digit (c : ascii) :
  is_digit c = true -> digit c = Some (byte c - 48) /\ 0 <= byte c - 48 <= 9.
Proof.
  unfold is_digit, digit. intros Hd. cbv zeta. rewrite Hd. split; [reflexivity | lia].
Qed.

Lemma digit_of_other (c : ascii) :
  is_digit c = false -> digit c = None \/ exists d, digit c = Some d /\ base <= d.
Proof.
  unfold is_digit, digit, base. intros Hd. cbv zeta. rewrite Hd.
  destruct ((97 <=? lower (byte c)) && (lower (byte c) <=? 122)) eqn:Hl.
  - right. eexists. split; [reflexivity | lia].
  - now left.
Qed.

Lemma maxVal_eq : maxVal = maxUint64.
Proof. reflexivity. Qed.

Lemma cutoff_eq : cutoff = 1844674407370955162.
Proof. reflexivity. Qed.

Lemma decimal_from_ge (s : string) (n : Z) :
  digits s = true -> 0 <= n -> n <= decimal_from n s.
Proof.
  revert n. induction s as [|c s IH]; intros n Hs Hn; simpl in *.
  - lia.
  - apply andb_prop in Hs as [Hc Hs].
    destruct (digit_of_digit c Hc) as [_ Hr].
    specialize (IH (10 * n + (byte c - 48)) Hs). lia.
Qed.

(** On digits the loop computes the numeral, or reports that it passed
    the largest [uint64]. *)
Lemma ParseUint_loop_digits (s0 s : string) (n : Z) :
  digits s = true -> 0 <= n <= maxUint64 ->
  ParseUint_loop s0 s n =
    if decimal_from n s <=? maxUint64
    then (decimal_from n s, None)
    else (maxUint64, Some (rangeError "ParseUint" s0)).
Proof.
  revert n. induction s as [|c s IH]; intros n Hs Hn; simpl in *.
  - destruct (Z.leb_spec n maxUint64); [reflexivity | lia].
  - apply andb_prop in Hs as [Hc Hs].
    destruct (digit_of_digit c Hc) as [-> Hr].
    pose proof (decimal_from_ge s (10 * n + (byte c - 48)) Hs) as Hge.
    rewrite maxVal_eq, cutoff_eq. unfold base, wrap_u64, maxUint64 in *.
    destruct (Z.leb_spec 10 (byte c - 48)); [lia|].
    destruct (Z.leb_spec 1844674407370955162 n).
    { destruct (Z.leb_spec (decimal_from (10 * n + (byte c - 48)) s) (2 ^ 64 - 1));
        [lia | reflexivity]. }
    rewrite (Z.mod_small (n * 10)) by lia.
    destruct (Z.le_gt_cases (2 ^ 64) (n * 10 + (byte c - 48))) as [Hov | Hfit].
    + assert (Hm : (n * 10 + (byte c - 48)) mod 2 ^ 64 = n * 10 + (byte c - 48) - 2 ^ 64).
      { symmetry. apply (Z.mod_unique _ _ 1); lia. }
      rewrite Hm.
      destruct (Z.ltb_spec (n * 10 + (byte c - 48) - 2 ^ 64) (n * 10)); [|lia].
      simpl.
      destruct (Z.leb_spec (decimal_from (10 * n + (byte c - 48)) s) (2 ^ 64 - 1));
        [lia | reflexivity].
    + rewrite (Z.mod_small (n * 10 + (byte c - 48))) by lia.
      destruct (Z.ltb_spec (n * 10 + (byte c - 48)) (n * 10)); [lia|].
      destruct (Z.ltb_spec (2 ^ 64 - 1) (n * 10 + (byte c - 48))); [lia|].
      simpl. rewrite IH by (auto; lia).
      replace (n * 10) with (10 * n) by lia. reflexivity.
Qed.

(** Off the digits the loop ends in an error. *)
Lemma ParseUint_loop_other (s0 s : string) (n : Z) :
  digits s = false ->
  ParseUint_loop s0 s n = (0, Some (syntaxError "ParseUint" s0)) \/
  ParseUint_loop s0 s n = (maxUint64, Some (rangeError "ParseUint" s0)).
Proof.
  revert n. induction s as [|c s IH]; intros n Hs; simpl in *; [discriminate|].
  destruct (is_digit c) eqn:Hc.
  - destruct (digit_of_digit c Hc) as [-> Hr]. simpl in Hs. rewrite maxVal_eq.
    repeat match goal with
           | |- context [if ?b then _ else _] => destruct b
           end; auto.
  - destruct (digit_of_other c Hc) as [-> | (d & -> & Hd)]; [auto|].
    destruct (Z.leb_spec base d); [auto | lia].
Qed.

Lemma ParseUint_numeral (s : string) (v : Z) :
  numeral s = Some v ->
  0 <= v /\
  ParseUint s =
    if v <=? maxUint64 then (v, None)
    else (maxUint64, Some (rangeError "ParseUint" s)).
Proof.
  destruct s as [|c s]; [discriminate|].
  unfold numeral, ParseUint. destruct (digits (String c s)) eqn:Hd; [|discriminate].
  intros [= <-]. split.
  - apply (decimal_from_ge (String c s) 0 Hd). lia.
  - apply (ParseUint_loop_digits _ (String c s) 0 Hd). unfold maxUint64. lia.
Qed.

Lemma ParseUint_other (s : string) :
  numeral s = None ->
  ParseUint s = (0, Some (syntaxError "ParseUint" s)) \/
  ParseUint s = (maxUint64, Some (rangeError "ParseUint" s)).
Proof.
  destruct s as [|c s]; [now left|].
  unfold numeral, ParseUint. destruct (digits (String c s)) eqn:Hd; [discriminate|].
  intros _. now apply ParseUint_loop_other.
Qed.

Lemma ParseInt_signed (c : ascii) (rest : string) :
  ParseInt (String c rest) =
    if Ascii.eqb c "+" then signed (String c rest) false (ParseUint rest)
    else if Ascii.eqb c "-" then signed (String c rest) true (ParseUint rest)
    else signed (String c rest) false (ParseUint (String c rest)).
Proof.
  unfold ParseInt.
  destruct (Ascii.eqb c "+"); [reflexivity|].
  destruct (Ascii.eqb c "-"); reflexivity.
Qed.

Lemma signed_numeral_pos (s0 s : string) (v : Z) :
  numeral s = Some v -> signed s0 false (ParseUint s) = clamp s0 v.
Proof.
  intros Hn. destruct (ParseUint_numeral s v Hn) as [Hv ->].
  unfold clamp, signed, minInt64, maxInt64, maxUint64.
  change (wrap_u64 (Z.shiftl 1 (bitSize - 1))) with (2 ^ 63).
  change (wrap_i64 (2 ^ 63 - 1)) with (2 ^ 63 - 1).
  destruct (Z.leb_spec v (2 ^ 64 - 1)); cbn [negb andb].
  - destruct (Z.leb_spec (2 ^ 63) v), (Z.leb_spec (- 2 ^ 63) v),
      (Z.leb_spec v (2 ^ 63 - 1)), (Z.ltb_spec v 0); try lia; cbn [andb]; try reflexivity.
    unfold wrap_i64. rewrite Z.mod_small by lia. f_equal. lia.
  - change (2 ^ 63 <=? 2 ^ 64 - 1) with true. cbn iota.
    destruct (Z.leb_spec (- 2 ^ 63) v),
      (Z.leb_spec v (2 ^ 63 - 1)), (Z.ltb_spec v 0); try lia; cbn [andb]; reflexivity.
Qed.

Lemma signed_numeral_neg (s0 s : string) (v : Z) :
  numeral s = Some v -> signed s0 true (ParseUint s) = clamp s0 (- v).
Proof.
  intros Hn. destruct (ParseUint_numeral s v Hn) as [Hv ->].
  unfold clamp, signed, minInt64, maxInt64, maxUint64.
  change (wrap_u64 (Z.shiftl 1 (bitSize - 1))) with (2 ^ 63).
  change (wrap_i64 (- wrap_i64 (2 ^ 63))) with (- 2 ^ 63).
  destruct (Z.leb_spec v (2 ^ 64 - 1)); cbn [negb andb].
  - destruct (Z.ltb_spec (2 ^ 63) v), (Z.leb_spec (- 2 ^ 63) (- v)),
      (Z.leb_spec (- v) (2 ^ 63 - 1)), (Z.ltb_spec (- v) 0); try lia; cbn [andb]; try reflexivity.
    + f_equal. destruct (Z.eq_dec v (2 ^ 63)) as [-> | Hne]; [reflexivity|].
      unfold wrap_i64. rewrite (Z.mod_small (v + 2 ^ 63)) by lia.
      replace (v + 2 ^ 63 - 2 ^ 63) with v by lia.
      rewrite Z.mod_small by lia. lia.
    + f_equal. assert (v = 0) as -> by lia. reflexivity.
  - change (2 ^ 63 <? 2 ^ 64 - 1) with true. cbn iota.
    destruct (Z.leb_spec (- 2 ^ 63) (- v)),
      (Z.leb_spec (- v) (2 ^ 63 - 1)), (Z.ltb_spec (- v) 0); try lia; cbn [andb]; reflexivity.
Qed.

Lemma signed_other (s0 s : string) (neg : bool) :
  numeral s = None ->
  signed s0 neg (ParseUint s) = (0, Some (syntaxError "ParseInt" s0)) \/
  signed s0 neg (ParseUint s) =
    (if neg then minInt64 else maxInt64, Some (rangeError "ParseInt" s0)).
Proof.
  intros Hn. destruct (ParseUint_other s Hn) as [-> | ->]; [now left | right].
  destruct neg; reflexivity.
Qed.

(** [ParseInt] on a numeral: its value, or the nearest bound and a range
    error. *)
Lemma ParseInt_numeral (s : string) (v : Z) :
  signed_numeral s = Some v -> ParseInt s = clamp s v.
Proof.
  destruct s as [|c rest]; [discriminate|].
  rewrite ParseInt_signed. unfold signed_numeral.
  destruct (Ascii.eqb c "+"); [apply signed_numeral_pos|].
  destruct (Ascii.eqb c "-"); [|apply signed_numeral_pos].
  destruct (numeral rest) as [u|] eqn:Hu; [|discriminate].
  intros [= <-]. now apply signed_numeral_neg.
Qed.

(** [ParseInt] on anything else: zero and a syntax error, or a bound and a
    range error (the digits read before the offending byte already pass
    the largest [uint64]). *)
Lemma ParseInt_other (s : string) :
  signed_numeral s = None ->
  ParseInt s = (0, Some (syntaxError "ParseInt" s)) \/
  ParseInt s = (minInt64, Some (rangeError "ParseInt" s)) \/
  ParseInt s = (maxInt64, Some (rangeError "ParseInt" s)).
Proof.
  destruct s as [|c rest]; [now left|].
  rewrite ParseInt_signed. unfold signed_numeral.
  destruct (Ascii.eqb c "+").
  { intros Hn. destruct (signed_other (String c rest) rest false Hn) as [-> | ->]; auto. }
  destruct (Ascii.eqb c "-").
  { destruct (numeral rest) eqn:Hn; [discriminate|]. intros _.
    destruct (signed_other (String c rest) rest true Hn) as [-> | ->]; auto. }
  intros Hn. destruct (signed_other (String c rest) _ false Hn) as [-> | ->]; auto.
Qed.

(** The loop stops at the first overflow: digits that pass the largest
    [uint64] give a range error even when a byte that is no digit follows. *)
Lemma ParseInt_numeral_above (s : string) (v : Z) :
  signed_numeral s = Some v -> maxInt64 < v ->
  ParseInt s = (maxInt64, Some (rangeError "ParseInt" s)).
Proof.
  intros Hs Hv. rewrite (ParseInt_numeral s v Hs). unfold clamp.
  destruct (Z.leb_spec minInt64 v), (Z.leb_spec v maxInt64), (Z.ltb_spec v 0);
    unfold minInt64, maxInt64 in *; try lia; reflexivity.
Qed.

Lemma ParseInt_numeral_below (s : string) (v : Z) :
  signed_numeral s = Some v -> v < minInt64 ->
  ParseInt s = (minInt64, Some (rangeError "ParseInt" s)).
Proof.
  intros Hs Hv. rewrite (ParseInt_numeral s v Hs). unfold clamp.
  destruct (Z.leb_spec minInt64 v), (Z.leb_spec v maxInt64), (Z.ltb_spec v 0);
    unfold minInt64, maxInt64 in *; try lia; reflexivity.
Qed.

(** A range error comes with the bound on the side of the sign. *)
Lemma signed_range_value (s0 : string) (neg : bool) (r : Z * nilable NumError)
    (e : NumError) :
  (signed s0 neg r).2 = Some e -> Err e = ErrRange ->
  (signed s0 neg r).1 = if neg then minInt64 else maxInt64.
Proof.
  destruct r as [un err]. unfold signed.
  assert (Hgen :
    forall res : Z * nilable NumError,
      res = (let cutoff := wrap_u64 (Z.shiftl 1 (bitSize - 1)) in
             if negb neg && (cutoff <=? un)
             then (wrap_i64 (cutoff - 1), Some (rangeError "ParseInt" s0))
             else if neg && (cutoff <? un)
             then (wrap_i64 (- wrap_i64 cutoff), Some (rangeError "ParseInt" s0))
             else
               let n := wrap_i64 un in
               let n := if neg then wrap_i64 (- n) else n in
               (n, None)) ->
      res.2 = Some e -> res.1 = if neg then minInt64 else maxInt64).
  { intros res ->. cbv zeta.
    destruct neg; cbn [negb andb];
      repeat match goal with
             | |- context [if ?b then _ else _] => destruct b
             end; cbn [fst snd]; try discriminate; intros _; reflexivity. }
  destruct err as [[f n [|]]|]; cbn [Err].
  - cbn. intros [= <-]. discriminate.
  - intros He _. now apply Hgen in He.
  - intros He _. now apply Hgen in He.
Qed.

Lemma ParseInt_range_value (s : string) (e : NumError) :
  (ParseInt s).2 = Some e -> Err e = ErrRange ->
  (ParseInt s).1 = if negative s then minInt64 else maxInt64.
Proof.
  destruct s as [|c rest]; [cbn; intros [= <-]; discriminate|].
  rewrite ParseInt_signed. cbn [negative].
  destruct (Ascii.eqb_spec c "+") as [-> | Hplus].
  - apply signed_range_value.
  - destruct (Ascii.eqb c "-"); apply signed_range_value.
Qed.

Example ParseInt_range_after_junk :
  ParseInt "99999999999999999999x"
  = (maxInt64, Some (rangeError "ParseInt" "99999999999999999999x")).
Proof. reflexivity. Qed.

End ParseInt.

(** ** The requests of the client *)

Lemma append_empty_r (s : string) : s +:+ "" = s.
Proof.
  induction s as [|c s IH]; [reflexivity|].
  change (String c (s +:+ "") = String c s). now rewrite IH.
Qed.

(** The format strings of the client print the path table. *)

Section Paths.

Import rpc.

Lemma Sprintf_contracts (block : string) :
  fmt.Sprintf "chains/main/blocks/%s/context/contracts" [fmt.stringer block]
  = path_contracts block.
Proof. reflexivity. Qed.

Lemma Sprintf_balance (block addr : string) :
  fmt.Sprintf "chains/main/blocks/%s/context/contracts/%s/balance"
    [fmt.stringer block; fmt.stringer addr]
  = path_balance block addr.
Proof. reflexivity. Qed.

Lemma Sprintf_script (addr : string) :
  fmt.Sprintf "chains/main/blocks/head/context/contracts/%s/script" [fmt.stringer addr]
  = path_script addr.
Proof. reflexivity. Qed.

Lemma Sprintf_storage (block addr : string) :
  fmt.Sprintf "chains/main/blocks/%s/context/contracts/%s/storage"
    [fmt.stringer block; fmt.stringer addr]
  = path_storage block addr.
Proof. reflexivity. Qed.

Lemma Sprintf_entrypoints (addr : string) :
  fmt.Sprintf "chains/main/blocks/head/context/contracts/%s/entrypoints"
    [fmt.stringer addr]
  = path_entrypoints addr.
Proof. reflexivity. Qed.

Lemma Sprintf_bigmap_keys (block : string) (bigmap : Z) :
  fmt.Sprintf "chains/main/blocks/%s/context/raw/json/big_maps/index/%d/contents"
    [fmt.stringer block; fmt.int64 bigmap]
  = path_bigmap_keys block (strconv.FormatInt bigmap).
Proof. reflexivity. Qed.

Lemma Sprintf_bigmap_value (block : string) (bigmap : Z) (hash : string) :
  fmt.Sprintf "chains/main/blocks/%s/context/raw/json/big_maps/index/%d/contents/%s"
    [fmt.stringer block; fmt.int64 bigmap; fmt.stringer hash]
  = path_bigmap_value block (strconv.FormatInt bigmap) hash.
Proof.
  transitivity
    ("chains/main/blocks/" +:+ block +:+ "/context/raw/json/big_maps/index/"
       +:+ strconv.FormatInt bigmap +:+ "/contents/" +:+ (hash +:+ "")).
  - reflexivity.
  - now rewrite append_empty_r.
Qed.

Lemma Sprintf_bigmap_info (block : string) (bigmap : Z) :
  fmt.Sprintf "chains/main/blocks/%s/context/raw/json/big_maps/index/%d"
    [fmt.stringer block; fmt.int64 bigmap]
  = path_bigmap_info block (strconv.FormatInt bigmap).
Proof.
  transitivity
    ("chains/main/blocks/" +:+ block +:+ "/context/raw/json/big_maps/index/"
       +:+ (strconv.FormatInt bigmap +:+ "")).
  - reflexivity.
  - now rewrite append_empty_r.
Qed.

End Paths.

Create Rewrite HintDb paths.
#[local] Hint Rewrite Sprintf_contracts Sprintf_balance Sprintf_script Sprintf_storage
  Sprintf_entrypoints Sprintf_bigmap_keys Sprintf_bigmap_value Sprintf_bigmap_info : paths.

Section ClientFacts.

Import tezos micheline rpc.

Context `{Transport}.

Ltac run_method :=
  intros; unfold fmt.s, fmt.d; autorewrite with paths;
  unfold round_trip, Get, mbind, M_bind, mret, M_ret;
  match goal with
  | |- context [transport ?T ?o ?c ?u ?v ?w] =>
      destruct (transport T o c u v w) as [[? [?|]] ?]
  end; try reflexivity.

Lemma GetContracts_run ctx id st :
  GetContracts ctx id st =
    round_trip ptr_Contracts make0 ctx (path_contracts (fmt.to_String id))
      (fun v err => match err with Some e => (None, Some e) | None => (v, None) end) st.
Proof. unfold GetContracts. run_method. Qed.

Lemma GetContractBalance_run ctx addr id st :
  GetContractBalance ctx addr id st =
    round_trip ptr_string "" ctx (path_balance (fmt.to_String id) (fmt.to_String addr))
      (fun bal err =>
         match err with
         | Some e => (0, Some e)
         | None => ((strconv.ParseInt bal).1, NumError <$> (strconv.ParseInt bal).2)
         end) st.
Proof.
  unfold GetContractBalance. run_method.
  destruct (strconv.ParseInt _); reflexivity.
Qed.

Lemma GetContractScript_run ctx addr st :
  GetContractScript ctx addr st =
    round_trip ptr_Script micheline.NewScript ctx (path_script (fmt.to_String addr))
      (fun s err => match err with Some e => (None, Some e) | None => (Some s, None) end) st.
Proof. unfold GetContractScript. run_method. Qed.

Lemma GetContractStorage_run ctx addr id st :
  GetContractStorage ctx addr id st =
    round_trip ptr_Prim micheline.Prim_zero ctx
      (path_storage (fmt.to_String id) (fmt.to_String addr))
      (fun prim err =>
         match err with
         | Some e => (micheline.InvalidPrim, Some e)
         | None => (prim, None)
         end) st.
Proof. unfold GetContractStorage. run_method. Qed.

Lemma GetContractEntrypoints_run ctx addr st :
  GetContractEntrypoints ctx addr st =
    round_trip ptr_eptype (mk_eptype None) ctx (path_entrypoints (fmt.to_String addr))
      (fun eps err =>
         match err with
         | Some e => (None, Some e)
         | None => (Entrypoints eps, None)
         end) st.
Proof. unfold GetContractEntrypoints. run_method. Qed.

Lemma GetBigmapKeys_run ctx bigmap id st :
  GetBigmapKeys ctx bigmap id st =
    round_trip ptr_ExprHashes make0 ctx
      (path_bigmap_keys (fmt.to_String id) (strconv.FormatInt bigmap))
      (fun v err => match err with Some e => (None, Some e) | None => (v, None) end) st.
Proof. unfold GetBigmapKeys. run_method. Qed.

Lemma GetBigmapValue_run ctx bigmap hash id st :
  GetBigmapValue ctx bigmap hash id st =
    round_trip ptr_Prim micheline.Prim_zero ctx
      (path_bigmap_value (fmt.to_String id) (strconv.FormatInt bigmap) (fmt.to_String hash))
      (fun prim err =>
         match err with
         | Some e => (micheline.InvalidPrim, Some e)
         | None => (prim, None)
         end) st.
Proof. unfold GetBigmapValue. run_method. Qed.

Lemma GetBigmapInfo_run ctx bigmap id st :
  GetBigmapInfo ctx bigmap id st =
    round_trip ptr_BigmapInfo (mkBigmapInfo micheline.Prim_zero micheline.Prim_zero 0) ctx
      (path_bigmap_info (fmt.to_String id) (strconv.FormatInt bigmap))
      (fun info err => match err with Some e => (None, Some e) | None => (Some info, None) end) st.
Proof. unfold GetBigmapInfo. run_method. Qed.

Ltac run_call op :=
  destruct op; cbn [call];
  unfold GetContractsHeight, GetContractBalanceHeight, GetContractStorageHeight,
    GetActiveBigmapKeys, GetActiveBigmapValue, GetBigmapValueHeight, GetActiveBigmapInfo;
  first [ rewrite GetContracts_run | rewrite GetContractBalance_run
        | rewrite GetContractScript_run | rewrite GetContractStorage_run
        | rewrite GetContractEntrypoints_run | rewrite GetBigmapKeys_run
        | rewrite GetBigmapValue_run | rewrite GetBigmapInfo_run ];
  unfold round_trip, answer; cbn;
  match goal with
  | |- context [transport ?T ?o ?c ?u ?v ?w] =>
      destruct (transport T o c u v w) as [[? [?|]] ?]
  end; cbn.

Lemma call_state {R : Type} (op : Op R) (ctx : Ctx) (st : State) :
  (call op ctx st).2 =
    mkState (answer op ctx (world st)).2 (sent st ++ [mkRequest ctx (spec_path op)]).
Proof. run_call op; reflexivity. Qed.

Lemma call_failed {R : Type} (op : Op R) (ctx : Ctx) (st : State) (e : error Failure) :
  (answer op ctx (world st)).1.2 = Some e ->
  (call op ctx st).1 = (zero_value op, Some e).
Proof. run_call op; intros [= <-]; reflexivity. Qed.

Lemma call_succeeded {R : Type} (op : Op R) (ctx : Ctx) (st : State) :
  (answer op ctx (world st)).1.2 = None ->
  secondary_parse_fails op (answer op ctx (world st)).1.1 = false ->
  (call op ctx st).1.2 = None.
Proof.
  run_call op; intros Herr Hparse; try discriminate; try reflexivity.
  all: unfold parse_fails in Hparse;
    destruct (strconv.ParseInt _) as [n [e|]]; [discriminate | reflexivity].
Qed.

Lemma call_fails_iff {R : Type} (op : Op R) (ctx : Ctx) (st : State) :
  is_Some (call op ctx st).1.2 <->
  is_Some (answer op ctx (world st)).1.2 \/
  secondary_parse_fails op (answer op ctx (world st)).1.1 = true.
Proof.
  destruct (answer op ctx (world st)).1.2 as [e|] eqn:Herr.
  - rewrite (call_failed op ctx st e Herr). cbn. split; eauto.
  - destruct (secondary_parse_fails op (answer op ctx (world st)).1.1) eqn:Hparse.
    + split; [auto|]. intros _. revert Herr Hparse.
      run_call op; intros Herr Hparse; try discriminate.
      all: unfold parse_fails in Hparse;
        destruct (strconv.ParseInt _) as [n [e|]]; [cbn; eauto | discriminate].
    + rewrite (call_succeeded op ctx st Herr Hparse).
      split; [intros [x Hx]; discriminate | intros [[x Hx] | Hx]; discriminate].
Qed.

(** A failed parse of [ParseInt]: zero with a syntax error, or a bound of
    the 64-bit range with a range error. *)
Lemma ParseInt_failure (s : string) (e : strconv.NumError) :
  (strconv.ParseInt s).2 = Some e ->
  (strconv.Err e = strconv.ErrSyntax /\ (strconv.ParseInt s).1 = 0) \/
  (strconv.Err e = strconv.ErrRange /\
   ((strconv.ParseInt s).1 = minInt64 \/ (strconv.ParseInt s).1 = maxInt64)).
Proof.
  destruct (strconv.signed_numeral s) as [v|] eqn:Hs.
  - rewrite (ParseInt_numeral s v Hs). unfold strconv.clamp.
    destruct ((minInt64 <=? v) && (v <=? maxInt64)); [discriminate|].
    cbn. intros [= <-]. right. split; [reflexivity|].
    destruct (v <? 0); auto.
  - destruct (ParseInt_other s Hs) as [-> | [-> | ->]]; cbn; intros [= <-]; auto.
Qed.

Lemma GetContractBalance_decoded
    (ctx : Ctx) (addr : Address) (id : BlockID) (st : State) (bal : string) (w : World) :
  transport string ptr_string ctx
    (path_balance (fmt.to_String id) (fmt.to_String addr)) "" (world st)
    = ((bal, None), w) ->
  (GetContractBalance ctx addr id st).1
    = ((strconv.ParseInt bal).1, NumError <$> (strconv.ParseInt bal).2).
Proof.
  intros Hget. rewrite GetContractBalance_run. unfold round_trip. now rewrite Hget.
Qed.

(** The value that comes with a failed parse of the balance. *)
Lemma balance_parse_failure (bal : string) (e : strconv.NumError) :
  (strconv.ParseInt bal).2 = Some e ->
  (strconv.Err e = strconv.ErrSyntax -> (strconv.ParseInt bal).1 = 0) /\
  (strconv.Err e = strconv.ErrRange ->
     (strconv.ParseInt bal).1 = if strconv.negative bal then minInt64 else maxInt64) /\
  (forall v, strconv.signed_numeral bal = Some v ->
     (maxInt64 < v -> (strconv.ParseInt bal).1 = maxInt64) /\
     (v < minInt64 -> (strconv.ParseInt bal).1 = minInt64)).
Proof.
  intros He. split; [|split].
  - intros Hk. destruct (ParseInt_failure bal e He) as [[_ Hz] | [Hr _]]; [exact Hz|].
    congruence.
  - now apply ParseInt_range_value.
  - intros v Hv. split; intros Hout.
    + now rewrite (ParseInt_numeral_above bal v Hv Hout).
    + now rewrite (ParseInt_numeral_below bal v Hv Hout).
Qed.

(** ** The claims about every transport *)

(** C1 (amended). [GetContractBalance] returns what [strconv.ParseInt]
    returns for the string the transport decoded from the response body: the
    base-10 signed-integer parse and, when that parse fails, its non-nil
    error together with the value [ParseInt] gives a failure - zero for a
    syntax error and, for a range error, the nearest bound of the 64-bit
    range: the largest [int64] for a numeral above the range, the least
    [int64] for a numeral below it, and for every range error the bound on
    the side of the sign of the string. *)
Theorem GetContractBalance_returns_ParseInt
    (ctx : Ctx) (addr : Address) (id : BlockID) (st : State) (bal : string) (w : World) :
  transport string ptr_string ctx
    (path_balance (fmt.to_String id) (fmt.to_String addr)) "" (world st)
    = ((bal, None), w) ->
  (GetContractBalance ctx addr id st).1
    = ((strconv.ParseInt bal).1, NumError <$> (strconv.ParseInt bal).2) /\
  (forall n, strconv.signed_numeral bal = Some n -> in_int64 n ->
     (GetContractBalance ctx addr id st).1 = (n, None)) /\
  (forall e, (strconv.ParseInt bal).2 = Some e ->
     (GetContractBalance ctx addr id st).1.2 = Some (NumError e) /\
     ((strconv.Err e = strconv.ErrSyntax /\ (GetContractBalance ctx addr id st).1.1 = 0) \/
      (strconv.Err e = strconv.ErrRange /\
       ((GetContractBalance ctx addr id st).1.1 = minInt64 \/
        (GetContractBalance ctx addr id st).1.1 = maxInt64)))) /\
  (forall v, strconv.signed_numeral bal = Some v -> maxInt64 < v ->
     (GetContractBalance ctx addr id st).1
       = (maxInt64, Some (NumError (strconv.rangeError "ParseInt" bal)))) /\
  (forall v, strconv.signed_numeral bal = Some v -> v < minInt64 ->
     (GetContractBalance ctx addr id st).1
       = (minInt64, Some (NumError (strconv.rangeError "ParseInt" bal)))) /\
  (forall e, (strconv.ParseInt bal).2 = Some e -> strconv.Err e = strconv.ErrRange ->
     (GetContractBalance ctx addr id st).1.1
       = if strconv.negative bal then minInt64 else maxInt64).
Proof.
  intros Hget.
  pose proof (GetContractBalance_decoded ctx addr id st bal w Hget) as Hrun.
  split; [exact Hrun|]. rewrite Hrun. cbn [fst snd].
  split; [|split; [|split; [|split]]].
  - intros n Hn [Hlo Hhi]. rewrite (ParseInt_numeral bal n Hn). unfold strconv.clamp.
    destruct (Z.leb_spec minInt64 n), (Z.leb_spec n maxInt64); try lia. reflexivity.
  - intros e He. split; [now rewrite He|]. now apply ParseInt_failure.
  - intros v Hv Habove. now rewrite (ParseInt_numeral_above bal v Hv Habove).
  - intros v Hv Hbelow. now rewrite (ParseInt_numeral_below bal v Hv Hbelow).
  - intros e He Hr. now apply (ParseInt_range_value bal e).
Qed.

(** The [Prim] methods for every transport: the sentinel and the error when
    the transport fails, otherwise the [Prim] the transport left in the
    target and a nil error. *)
Lemma Prim_methods_sentinel_on_error
    (ctx : Ctx) (addr : Address) (bigmap : Z) (hash : ExprHash) (id : BlockID) (st : State) :
  let storage :=
    transport Prim ptr_Prim ctx
      (path_storage (fmt.to_String id) (fmt.to_String addr)) Prim_zero (world st) in
  let value :=
    transport Prim ptr_Prim ctx
      (path_bigmap_value (fmt.to_String id) (strconv.FormatInt bigmap) (fmt.to_String hash))
      Prim_zero (world st) in
  (GetContractStorage ctx addr id st).1
    = match storage.1.2 with
      | Some e => (InvalidPrim, Some e)
      | None => (storage.1.1, None)
      end /\
  (GetBigmapValue ctx bigmap hash id st).1
    = match value.1.2 with
      | Some e => (InvalidPrim, Some e)
      | None => (value.1.1, None)
      end /\
  ((GetContractStorage ctx addr id st).1 = (InvalidPrim, None)
     <-> storage.1 = (InvalidPrim, None)) /\
  ((GetBigmapValue ctx bigmap hash id st).1 = (InvalidPrim, None)
     <-> value.1 = (InvalidPrim, None)).
Proof.
  intros storage value.
  rewrite GetContractStorage_run, GetBigmapValue_run. unfold round_trip.
  fold storage value.
  destruct storage as [[p [e|]] w], value as [[p' [e'|]] w']; cbn.
  all: repeat split; try reflexivity; try discriminate; try (intros [= ->]; reflexivity).
Qed.


(** C3. Each height-relative method is the block-reference method applied
    to the height wrapped into a block reference: from every state the two
    issue the same request (context and path), return the same value and
    error, and leave the same world.  The request is the one of the path
    table with the decimal height as block segment: the wrappers add
    nothing of their own. *)
Theorem height_methods_delegate
    (ctx : Ctx) (addr : Address) (bigmap : Z) (hash : ExprHash) (height : Z) (st : State) :
  (GetContractsHeight ctx height st = GetContracts ctx (BlockLevel height) st /\
   GetContractBalanceHeight ctx addr height st
     = GetContractBalance ctx addr (BlockLevel height) st /\
   GetContractStorageHeight ctx addr height st
     = GetContractStorage ctx addr (BlockLevel height) st /\
   GetBigmapValueHeight ctx bigmap hash height st
     = GetBigmapValue ctx bigmap hash (BlockLevel height) st) /\
  (sent (GetContractsHeight ctx height st).2
     = sent st ++ [mkRequest ctx (path_contracts (strconv.FormatInt height))] /\
   sent (GetContractBalanceHeight ctx addr height st).2
     = sent st ++
       [mkRequest ctx (path_balance (strconv.FormatInt height) (fmt.to_String addr))] /\
   sent (GetContractStorageHeight ctx addr height st).2
     = sent st ++
       [mkRequest ctx (path_storage (strconv.FormatInt height) (fmt.to_String addr))] /\
   sent (GetBigmapValueHeight ctx bigmap hash height st).2
     = sent st ++
       [mkRequest ctx (path_bigmap_value (strconv.FormatInt height)
                         (strconv.FormatInt bigmap) (fmt.to_String hash))])%list /\
  (spec_path (Call_GetContractsHeight height)
     = spec_path (Call_GetContracts (BlockLevel height)) /\
   spec_path (Call_GetContractBalanceHeight addr height)
     = spec_path (Call_GetContractBalance addr (BlockLevel height)) /\
   spec_path (Call_GetContractStorageHeight addr height)
     = spec_path (Call_GetContractStorage addr (BlockLevel height)) /\
   spec_path (Call_GetBigmapValueHeight bigmap hash height)
     = spec_path (Call_GetBigmapValue bigmap hash (BlockLevel height))).
Proof.
  split; [|split].
  - unfold GetContractsHeight, GetContractBalanceHeight, GetContractStorageHeight,
      GetBigmapValueHeight.
    repeat split.
  - pose proof (call_state (Call_GetContractsHeight height) ctx st) as Hc.
    pose proof (call_state (Call_GetContractBalanceHeight addr height) ctx st) as Hb.
    pose proof (call_state (Call_GetContractStorageHeight addr height) ctx st) as Hs.
    pose proof (call_state (Call_GetBigmapValueHeight bigmap hash height) ctx st) as Hv.
    cbn [call] in Hc, Hb, Hs, Hv. rewrite Hc, Hb, Hs, Hv.
    repeat split.
  - repeat split.
Qed.

(** C4. Every operation issues exactly one GET, with the context it was
    given, whose relative path is the template of the description for that
    operation, and calls the transport once; [GetContractScript],
    [GetContractEntrypoints] and the [Active] methods use the literal "head"
    as block segment whatever their arguments. *)
Theorem one_GET_on_the_path_template
    {R : Type} (op : Op R) (ctx : Ctx) (st : State) :
  sent (call op ctx st).2 = (sent st ++ [mkRequest ctx (spec_path op)])%list /\
  world (call op ctx st).2 = (answer op ctx (world st)).2 /\
  (forall (addr : Address) (bigmap : Z) (hash : ExprHash),
     req_path <$> sent (GetContractScript ctx addr st).2
       = (req_path <$> sent st) ++
         ["chains/main/blocks/head/context/contracts/" +:+ fmt.to_String addr
            +:+ "/script"] /\
     req_path <$> sent (GetContractEntrypoints ctx addr st).2
       = (req_path <$> sent st) ++
         ["chains/main/blocks/head/context/contracts/" +:+ fmt.to_String addr
            +:+ "/entrypoints"] /\
     req_path <$> sent (GetActiveBigmapKeys ctx bigmap st).2
       = (req_path <$> sent st) ++
         ["chains/main/blocks/head/context/raw/json/big_maps/index/"
            +:+ strconv.FormatInt bigmap +:+ "/contents"] /\
     req_path <$> sent (GetActiveBigmapValue ctx bigmap hash st).2
       = (req_path <$> sent st) ++
         ["chains/main/blocks/head/context/raw/json/big_maps/index/"
            +:+ strconv.FormatInt bigmap +:+ "/contents/" +:+ fmt.to_String hash] /\
     req_path <$> sent (GetActiveBigmapInfo ctx bigmap st).2
       = (req_path <$> sent st) ++
         ["chains/main/blocks/head/context/raw/json/big_maps/index/"
            +:+ strconv.FormatInt bigmap])%list.
Proof.
  split; [|split].
  - now rewrite call_state.
  - now rewrite call_state.
  - intros addr bigmap hash.
    change (GetContractScript ctx addr st)
      with (call (Call_GetContractScript addr) ctx st).
    change (GetContractEntrypoints ctx addr st)
      with (call (Call_GetContractEntrypoints addr) ctx st).
    change (GetActiveBigmapKeys ctx bigmap st)
      with (call (Call_GetActiveBigmapKeys bigmap) ctx st).
    change (GetActiveBigmapValue ctx bigmap hash st)
      with (call (Call_GetActiveBigmapValue bigmap hash) ctx st).
    change (GetActiveBigmapInfo ctx bigmap st)
      with (call (Call_GetActiveBigmapInfo bigmap) ctx st).
    rewrite (call_state (Call_GetContractScript addr)),
      (call_state (Call_GetContractEntrypoints addr)),
      (call_state (Call_GetActiveBigmapKeys bigmap)),
      (call_state (Call_GetActiveBigmapValue bigmap hash)),
      (call_state (Call_GetActiveBigmapInfo bigmap)).
    cbn [sent]. rewrite !fmap_app. repeat split; reflexivity.
Qed.

(** C5. [GetContractEntrypoints] returns exactly the mapping held by the
    single field of the wrapper the response was decoded into: the same
    map, entry for entry, with a nil error; and nil with the error when the
    transport fails. *)
Theorem GetContractEntrypoints_unwraps
    (ctx : Ctx) (addr : Address) (st : State)
    (eps : eptype) (err : nilable (error Failure)) (w : World) :
  transport eptype ptr_eptype ctx (path_entrypoints (fmt.to_String addr))
    (mk_eptype None) (world st) = ((eps, err), w) ->
  (GetContractEntrypoints ctx addr st).1
    = match err with
      | Some e => (None, Some e)
      | None => (Entrypoints eps, None)
      end /\
  (err = None ->
   forall (m : gmap string Prim),
     Entrypoints eps = Some m ->
     exists m', (GetContractEntrypoints ctx addr st).1.1 = Some m' /\
                forall name : string, m' !! name = m !! name).
Proof.
  intros Hget.
  assert (Hrun : (GetContractEntrypoints ctx addr st).1
                 = match err with
                   | Some e => (None, Some e)
                   | None => (Entrypoints eps, None)
                   end).
  { rewrite GetContractEntrypoints_run. unfold round_trip. rewrite Hget.
    destruct err; reflexivity. }
  split; [exact Hrun|].
  intros -> m Hm. rewrite Hrun. cbn. eauto.
Qed.

(** C6 (amended). Every operation fails exactly when the transport call
    fails or the secondary parse of the balance fails; it calls the transport
    once, without a retry; when the transport fails it returns the zero
    value of its result type (nil list, nil pointer, nil map, zero integer or
    the sentinel [Prim]) and the error of the transport; when the parse of
    the balance fails, either balance method returns the error of the parse
    and the value [ParseInt] returned with it: zero for a syntax error and,
    for a range error, the nearest bound of the 64-bit range - the largest
    [int64] for a numeral above the range, the least for one below it, in
    every case the bound on the side of the sign of the string. *)
Theorem failure_semantics {R : Type} (op : Op R) (ctx : Ctx) (st : State) :
  (is_Some (call op ctx st).1.2 <->
   is_Some (answer op ctx (world st)).1.2 \/
   secondary_parse_fails op (answer op ctx (world st)).1.1 = true) /\
  (forall e, (answer op ctx (world st)).1.2 = Some e ->
     (call op ctx st).1 = (zero_value op, Some e)) /\
  (call op ctx st).2
    = mkState (answer op ctx (world st)).2 (sent st ++ [mkRequest ctx (spec_path op)]) /\
  (forall (addr : Address) (id : BlockID) (bal : string) (w : World) (e : strconv.NumError),
     answer (Call_GetContractBalance addr id) ctx (world st) = ((bal, None), w) ->
     (strconv.ParseInt bal).2 = Some e ->
     (call (Call_GetContractBalance addr id) ctx st).1
       = ((strconv.ParseInt bal).1, Some (NumError e)) /\
     ((strconv.Err e = strconv.ErrSyntax /\ (strconv.ParseInt bal).1 = 0) \/
      (strconv.Err e = strconv.ErrRange /\
       ((strconv.ParseInt bal).1 = minInt64 \/ (strconv.ParseInt bal).1 = maxInt64))) /\
     (strconv.Err e = strconv.ErrRange ->
        (strconv.ParseInt bal).1 = if strconv.negative bal then minInt64 else maxInt64) /\
     (forall v, strconv.signed_numeral bal = Some v ->
        (maxInt64 < v -> (strconv.ParseInt bal).1 = maxInt64) /\
        (v < minInt64 -> (strconv.ParseInt bal).1 = minInt64))) /\
  (forall (addr : Address) (height : Z) (bal : string) (w : World) (e : strconv.NumError),
     answer (Call_GetContractBalanceHeight addr height) ctx (world st) = ((bal, None), w) ->
     (strconv.ParseInt bal).2 = Some e ->
     (call (Call_GetContractBalanceHeight addr height) ctx st).1
       = ((strconv.ParseInt bal).1, Some (NumError e)) /\
     ((strconv.Err e = strconv.ErrSyntax /\ (strconv.ParseInt bal).1 = 0) \/
      (strconv.Err e = strconv.ErrRange /\
       ((strconv.ParseInt bal).1 = minInt64 \/ (strconv.ParseInt bal).1 = maxInt64))) /\
     (strconv.Err e = strconv.ErrRange ->
        (strconv.ParseInt bal).1 = if strconv.negative bal then minInt64 else maxInt64) /\
     (forall v, strconv.signed_numeral bal = Some v ->
        (maxInt64 < v -> (strconv.ParseInt bal).1 = maxInt64) /\
        (v < minInt64 -> (strconv.ParseInt bal).1 = minInt64))).
Proof.
  split; [apply call_fails_iff|]. split; [apply call_failed|].
  split; [apply call_state|].
  split.
  - intros addr id bal w e Hget He.
    destruct (balance_parse_failure bal e He) as (_ & Hrange & Hnum).
    split; [|split; [now apply ParseInt_failure | split; assumption]].
    cbn [call]. rewrite (GetContractBalance_decoded ctx addr id st bal w Hget).
    now rewrite He.
  - intros addr height bal w e Hget He.
    destruct (balance_parse_failure bal e He) as (_ & Hrange & Hnum).
    split; [|split; [now apply ParseInt_failure | split; assumption]].
    cbn [call]. unfold GetContractBalanceHeight.
    rewrite (GetContractBalance_decoded ctx addr (BlockLevel height) st bal w Hget).
    now rewrite He.
Qed.

(** C8. Every operation hands the context it was given, unchanged, to its
    single transport call: the request recorded carries that context, the
    world it leaves is the one the transport left when called with that
    context, and its outcome is the answer of the transport to that context -
    the error of the transport and the zero value when that call fails, no
    error when it succeeds (the parse of the balance apart).  So, with a
    transport that returns an error for a context cancelled before the
    response is complete, the operation run with such a context returns the
    error of the transport together with the zero value of its result type -
    from every state, whatever calls came before: nothing is kept from one
    call to the next. *)
Theorem cancelled_context_fails
    (done : Ctx -> World -> bool) {R : Type} (op : Op R) (ctx : Ctx) (st : State) :
  honours_cancellation done ->
  req_ctx <$> sent (call op ctx st).2 = ((req_ctx <$> sent st) ++ [ctx])%list /\
  (done ctx (world st) = true ->
   exists e, (call op ctx st).1 = (zero_value op, Some e)) /\
  (forall {R' : Type} (before : Op R') (ctx' : Ctx),
     let st' := (call before ctx' st).2 in
     done ctx (world st') = true ->
     exists e, (call op ctx st').1 = (zero_value op, Some e)) /\
  (call op ctx st).2
    = mkState (answer op ctx (world st)).2 (sent st ++ [mkRequest ctx (spec_path op)]) /\
  (forall e, (answer op ctx (world st)).1.2 = Some e ->
     (call op ctx st).1 = (zero_value op, Some e)) /\
  (is_Some (call op ctx st).1.2 <->
   is_Some (answer op ctx (world st)).1.2 \/
   secondary_parse_fails op (answer op ctx (world st)).1.1 = true) /\
  (done ctx (world st) = true ->
   exists e, (answer op ctx (world st)).1.2 = Some e /\
             (call op ctx st).1 = (zero_value op, Some e)) /\
  (forall {R' : Type} (before : Op R') (ctx' : Ctx),
     let st' := (call before ctx' st).2 in
     done ctx (world st') = true ->
     world st' = (answer before ctx' (world st)).2 /\
     exists e, (answer op ctx (world st')).1.2 = Some e /\
               (call op ctx st').1 = (zero_value op, Some e)).
Proof.
  intros Hdone.
  assert (Hfail : forall s, done ctx (world s) = true ->
                            exists e, (answer op ctx (world s)).1.2 = Some e /\
                                      (call op ctx s).1 = (zero_value op, Some e)).
  { intros s Hs.
    destruct (Hdone _ (out_ptr (outparam op)) ctx (spec_path op)
                (out_init (outparam op)) (world s) Hs) as [e He].
    exists e. split; [exact He | now apply call_failed]. }
  split; [|split; [|split; [|split; [|split; [|split; [|split]]]]]].
  - rewrite call_state. cbn [sent]. now rewrite fmap_app.
  - intros Hs. destruct (Hfail st Hs) as (e & _ & He). eauto.
  - intros R' before ctx' st' Hs. destruct (Hfail st' Hs) as (e & _ & He). eauto.
  - apply call_state.
  - apply call_failed.
  - apply call_fails_iff.
  - apply Hfail.
  - intros R' before ctx' st' Hs. split; [|now apply Hfail].
    subst st'. now rewrite call_state.
Qed.

(** C10. The secondary parse of [GetContractBalance] succeeds exactly when
    the decoded string is a base-10 integer with an optional sign whose value
    lies in the 64-bit signed range, and then returns that value: "-5" is
    accepted and returned as -5; a numeral outside that range yields a range
    error. *)
Theorem GetContractBalance_parse_succeeds_iff
    (ctx : Ctx) (addr : Address) (id : BlockID) (st : State) (bal : string) (w : World) :
  transport string ptr_string ctx
    (path_balance (fmt.to_String id) (fmt.to_String addr)) "" (world st)
    = ((bal, None), w) ->
  (forall n : Z,
     (GetContractBalance ctx addr id st).1 = (n, None) <->
     strconv.signed_numeral bal = Some n /\ in_int64 n) /\
  (bal = "-5" -> (GetContractBalance ctx addr id st).1 = (-5, None)) /\
  (forall v : Z,
     strconv.signed_numeral bal = Some v -> ~ in_int64 v ->
     (GetContractBalance ctx addr id st).1.2
       = Some (NumError (strconv.rangeError "ParseInt" bal))).
Proof.
  intros Hget. rewrite (GetContractBalance_decoded ctx addr id st bal w Hget).
  assert (Hiff : forall n : Z,
            ((strconv.ParseInt bal).1, @NumError Failure <$> (strconv.ParseInt bal).2)
              = (n, None) <->
            strconv.signed_numeral bal = Some n /\ in_int64 n).
  { intros n. unfold in_int64. destruct (strconv.signed_numeral bal) as [v|] eqn:Hs.
    - rewrite (ParseInt_numeral bal v Hs). unfold strconv.clamp.
      destruct (Z.leb_spec minInt64 v), (Z.leb_spec v maxInt64); cbn;
        (split; [intros [= <-] | intros [[= <-] Hr]]); try discriminate;
        try (split; [reflexivity | lia]); try reflexivity; lia.
    - split; [|intros [[=] _]].
      destruct (ParseInt_other bal Hs) as [-> | [-> | ->]]; cbn; discriminate. }
  split; [exact Hiff|]. split.
  - intros ->. reflexivity.
  - intros v Hs Hout. rewrite (ParseInt_numeral bal v Hs). unfold strconv.clamp.
    unfold in_int64 in Hout.
    destruct (Z.leb_spec minInt64 v), (Z.leb_spec v maxInt64); try lia; reflexivity.
Qed.

End ClientFacts.

(** ** The claims about JSON bodies *)

Section JsonFacts.

Import tezos micheline rpc json.

Context `{Unmarshalers} `{Node}.

Lemma decode_elems_length {A : Type} (dec : Value -> A -> option A) (zero : A)
    (vs : list Value) (old l : list A) :
  decode_elems dec zero vs old = Some l -> length l = length vs.
Proof.
  revert old l. induction vs as [|v vs IH]; intros old l; cbn.
  - now intros [= <-].
  - destruct (dec v (hd zero old)) as [a|]; [|discriminate]. cbn.
    destruct (decode_elems dec zero vs (tl old)) as [l'|] eqn:Hl; [|discriminate].
    cbn. intros [= <-]. cbn. f_equal. eauto.
Qed.

(** The transport on a body that was fetched. *)
Lemma HTTP_fetched {T : Type} (out : Target T) (ctx : node_Ctx) (u : string) (v : T)
    (w w' : node_World) (body : Value) :
  fetch ctx u w = (inr body, w') ->
  transport T out ctx u v w =
    (match decode out body v with
     | Some v' => (v', None)
     | None => (v, Some (TransportError DecodeFailed))
     end, w').
Proof.
  intros Hfetch. cbn. rewrite Hfetch. destruct (decode out body v); reflexivity.
Qed.

(** The entries of a decoded map are those of the object, the last member
    of a name winning, each decoded from a zero [Prim]. *)
Lemma decode_entries_lookup (ms : list (string * Value)) (m m' : gmap string Prim)
    (k : string) :
  decode_entries ms m = Some m' ->
  m' !! k = match member k ms with
            | Some v => Prim_UnmarshalJSON v Prim_zero
            | None => m !! k
            end.
Proof.
  revert m. induction ms as [|[k' v] ms IH]; intros m; cbn.
  - now intros [= <-].
  - destruct (Prim_UnmarshalJSON v Prim_zero) as [p|] eqn:Hp; [|discriminate]. cbn.
    intros Hrest. rewrite (IH _ Hrest).
    destruct (member k ms); [reflexivity|].
    destruct (String.eqb_spec k k') as [-> | Hne].
    + now rewrite lookup_insert_eq.
    + now rewrite lookup_insert_ne.
Qed.

(** The mapping returned for a body [{"entrypoints": {...}}]: the names of
    the inner object and nothing else, each with its decoded [Prim]. *)
Lemma GetContractEntrypoints_of_body
    (ctx : node_Ctx) (addr : Address) (st : State) (w : node_World)
    (ms : list (string * Value)) (m : gmap string Prim) :
  fetch ctx (path_entrypoints (fmt.to_String addr)) (world st)
    = (inr (Object [("entrypoints", Object ms)]), w) ->
  (GetContractEntrypoints ctx addr st).1 = (Some m, None) ->
  forall name : string,
    m !! name = member name ms ≫= fun v => Prim_UnmarshalJSON v Prim_zero.
Proof.
  intros Hfetch. rewrite GetContractEntrypoints_run. unfold round_trip.
  rewrite (HTTP_fetched _ _ _ _ _ _ _ Hfetch). cbn.
  destruct (decode_entries ms ∅) as [m'|] eqn:Hm; cbn; [|discriminate].
  intros [= <-] name. rewrite (decode_entries_lookup ms ∅ m' name Hm).
  destruct (member name ms); [reflexivity | apply lookup_empty].
Qed.

Lemma numeral_not_null (q : string) (n : Z) :
  strconv.numeral q = Some n -> String.eqb q "null" = false.
Proof.
  destruct (String.eqb_spec q "null") as [-> | Hne]; [discriminate | reflexivity].
Qed.

(** A quoted numeral is read by [ParseInt]. *)
Lemma decode_int64_quoted_numeral (q : string) (n old : Z) :
  strconv.numeral q = Some n -> n <= maxInt64 ->
  decode_int64_quoted (Str q) old = Some n.
Proof.
  intros Hq Hn. unfold decode_int64_quoted. rewrite (numeral_not_null q n Hq).
  destruct q as [|c q]; [discriminate|].
  assert (Hc : strconv.is_digit c = true).
  { unfold strconv.numeral in Hq. cbn in Hq.
    destruct (strconv.is_digit c); [reflexivity | discriminate]. }
  assert (Hplus : Ascii.eqb c "+" = false).
  { destruct (Ascii.eqb_spec c "+") as [-> | Hne]; [discriminate | reflexivity]. }
  assert (Hminus : Ascii.eqb c "-" = false).
  { destruct (Ascii.eqb_spec c "-") as [-> | Hne]; [discriminate | reflexivity]. }
  unfold strconv.is_digit in Hc. rewrite Hminus, Hc. cbn [orb].
  assert (Hs : strconv.signed_numeral (String c q) = Some n).
  { unfold strconv.signed_numeral. now rewrite Hplus, Hminus. }
  rewrite (ParseInt_numeral _ n Hs). unfold strconv.clamp.
  destruct (ParseUint_numeral _ n Hq) as [Hpos _].
  destruct (Z.leb_spec minInt64 n), (Z.leb_spec n maxInt64);
    unfold minInt64 in *; try lia; reflexivity.
Qed.

(** C7. [GetBigmapInfo] reads [TotalBytes] from a JSON string that holds a
    base-10 numeral, and refuses a JSON number that is not quoted: for a body
    with the three fields [key_type], [value_type] and [total_bytes], the
    latter a quoted numeral such as "12345", the [BigmapInfo] returned holds
    the integer the numeral denotes (12345) and the two [Prim] values decoded
    from [key_type] and [value_type]. *)
Theorem GetBigmapInfo_TotalBytes_quoted
    (ctx : node_Ctx) (bigmap : Z) (id : BlockID) (st : State) (w : node_World)
    (key value total : Value) (kt vt : Prim) :
  fetch ctx (path_bigmap_info (fmt.to_String id) (strconv.FormatInt bigmap)) (world st)
    = (inr (Object [("key_type", key); ("value_type", value); ("total_bytes", total)]), w) ->
  Prim_UnmarshalJSON key Prim_zero = Some kt ->
  Prim_UnmarshalJSON value Prim_zero = Some vt ->
  (forall (q : string) (n : Z),
     total = Str q -> strconv.numeral q = Some n -> n <= maxInt64 ->
     (GetBigmapInfo ctx bigmap id st).1 = (Some (mkBigmapInfo kt vt n), None)) /\
  (total = Str "12345" ->
     (GetBigmapInfo ctx bigmap id st).1 = (Some (mkBigmapInfo kt vt 12345), None)) /\
  (forall literal : string,
     total = Number literal ->
     (GetBigmapInfo ctx bigmap id st).1 = (None, Some (TransportError DecodeFailed))).
Proof.
  intros Hfetch Hkey Hvalue.
  assert (Hq : forall (q : string) (n : Z),
            total = Str q -> strconv.numeral q = Some n -> n <= maxInt64 ->
            (GetBigmapInfo ctx bigmap id st).1 = (Some (mkBigmapInfo kt vt n), None)).
  { intros q n -> Hnum Hn. rewrite GetBigmapInfo_run. unfold round_trip.
    rewrite (HTTP_fetched _ _ _ _ _ _ _ Hfetch).
    cbn [decode decode_struct decode_members BigmapInfo_field String.eqb Ascii.eqb
         Bool.eqb KeyType ValueType TotalBytes mbind option_bind].
    rewrite Hkey. cbn [mbind option_bind KeyType ValueType TotalBytes].
    rewrite Hvalue. cbn [mbind option_bind KeyType ValueType TotalBytes].
    rewrite (decode_int64_quoted_numeral q n 0 Hnum Hn). reflexivity. }
  split; [exact Hq|]. split.
  - intros ->. apply (Hq "12345" 12345); [reflexivity | reflexivity | discriminate].
  - intros literal ->. rewrite GetBigmapInfo_run. unfold round_trip.
    rewrite (HTTP_fetched _ _ _ _ _ _ _ Hfetch).
    cbn [decode decode_struct decode_members BigmapInfo_field String.eqb Ascii.eqb
         Bool.eqb KeyType ValueType TotalBytes mbind option_bind].
    rewrite Hkey. cbn [mbind option_bind KeyType ValueType TotalBytes].
    rewrite Hvalue. reflexivity.
Qed.

(** C9 (amended). [GetContracts] and [GetBigmapKeys] preallocate the
    result as an empty sequence that is not nil, hand it to the transport as
    the decode target, and on success return the sequence the transport left
    there, on error nil.  A successful response whose body is a JSON array
    therefore yields a sequence that is not nil, with one element per element
    of the array - an empty array yields an empty list that is not nil -
    while a body that is the JSON [null] resets the target and yields nil
    without an error. *)
Theorem sequences_returned_as_decoded :
  (forall (T : Transport) (ctx : Ctx) (id : BlockID) (bigmap : Z) (st : State),
     let contracts :=
       transport Contracts ptr_Contracts ctx
         (path_contracts (fmt.to_String id)) (Some []) (world st) in
     let hashes :=
       transport (slice ExprHash) ptr_ExprHashes ctx
         (path_bigmap_keys (fmt.to_String id) (strconv.FormatInt bigmap))
         (Some []) (world st) in
     (GetContracts ctx id st).1
       = match contracts.1.2 with
         | Some e => (None, Some e)
         | None => (contracts.1.1, None)
         end /\
     (GetBigmapKeys ctx bigmap id st).1
       = match hashes.1.2 with
         | Some e => (None, Some e)
         | None => (hashes.1.1, None)
         end) /\
  (forall (ctx : node_Ctx) (id : BlockID) (bigmap : Z) (st : State) (w : node_World)
          (body : Value),
     (fetch ctx (path_contracts (fmt.to_String id)) (world st) = (inr body, w) ->
      (forall vs, body = Array vs ->
         (GetContracts ctx id st).1.2 = None ->
         exists l, (GetContracts ctx id st).1.1 = Some l /\ length l = length vs) /\
      (body = Array [] -> (GetContracts ctx id st).1 = (Some [], None)) /\
      (body = Null -> (GetContracts ctx id st).1 = (None, None))) /\
     (fetch ctx (path_bigmap_keys (fmt.to_String id) (strconv.FormatInt bigmap)) (world st)
        = (inr body, w) ->
      (forall vs, body = Array vs ->
         (GetBigmapKeys ctx bigmap id st).1.2 = None ->
         exists l, (GetBigmapKeys ctx bigmap id st).1.1 = Some l /\ length l = length vs) /\
      (body = Array [] -> (GetBigmapKeys ctx bigmap id st).1 = (Some [], None)) /\
      (body = Null -> (GetBigmapKeys ctx bigmap id st).1 = (None, None)))).
Proof.
  split.
  - intros T ctx id bigmap st contracts hashes.
    rewrite GetContracts_run, GetBigmapKeys_run. unfold round_trip, make0.
    fold contracts hashes.
    destruct contracts as [[v [e|]] w], hashes as [[v' [e'|]] w']; split; reflexivity.
  - intros ctx id bigmap st w body. split; intros Hfetch.
    + rewrite GetContracts_run. unfold round_trip.
      rewrite (HTTP_fetched _ _ _ _ _ _ _ Hfetch).
      repeat split.
      * intros vs ->. cbn.
        destruct (decode_elems Address_Unmarshal Address_zero vs []) as [l|] eqn:Hl;
          cbn; [|discriminate].
        intros _. exists l. split; [reflexivity|]. eapply decode_elems_length, Hl.
      * intros ->. reflexivity.
      * intros ->. reflexivity.
    + rewrite GetBigmapKeys_run. unfold round_trip.
      rewrite (HTTP_fetched _ _ _ _ _ _ _ Hfetch).
      repeat split.
      * intros vs ->. cbn.
        destruct (decode_elems ExprHash_Unmarshal ExprHash_zero vs []) as [l|] eqn:Hl;
          cbn; [|discriminate].
        intros _. exists l. split; [reflexivity|]. eapply decode_elems_length, Hl.
      * intros ->. reflexivity.
      * intros ->. reflexivity.
Qed.

End JsonFacts.

(** ** The client run on the sample node *)

Section SampleRuns.

Import tezos micheline rpc json Sample.

Lemma sample_honours_cancellation : honours_cancellation (fun ctx _ => done ctx).
Proof.
  intros T out ctx u v w Hdone. cbn. rewrite Hdone. cbn. eauto.
Qed.

(** C1, as stated, fails: the body "9223372036854775808" is one past the
    largest balance; its parse fails, and the balance returned with the
    error is the largest [int64], not zero. *)
Lemma GetContractBalance_range_error_balance :
  let body := Str "9223372036854775808" in
  let r := (GetContractBalance Live "tz1abc" (BlockLevel 100) (start (serving body))).1 in
  parse_fails "9223372036854775808" = true /\
  r = (9223372036854775807,
       Some (NumError (strconv.rangeError "ParseInt" "9223372036854775808"))) /\
  r.1 <> 0.
Proof. repeat split. discriminate. Qed.

(** C1 (amended) at a body that is no numeral: a syntax error and a zero
    balance. *)
Lemma GetContractBalance_returns_ParseInt_witness :
  let st := start (serving (Str "12x")) in
  transport string ptr_string Live
    "chains/main/blocks/head/context/contracts/tz1abc/balance" ""
    (world st) = (("12x", None), serving (Str "12x")) /\
  (GetContractBalance Live "tz1abc" Head st).1
    = (0, Some (NumError (strconv.syntaxError "ParseInt" "12x"))).
Proof.
  split; [reflexivity|].
  apply (proj1 (@GetContractBalance_returns_ParseInt tezos_types micheline_types client
                  Live "tz1abc" Head (start (serving (Str "12x"))) "12x"
                  (serving (Str "12x")) eq_refl)).
Defined.



(** C5 at a body with two entrypoints. *)
Lemma GetContractEntrypoints_unwraps_witness :
  let default := Object [("prim", Str "unit")] in
  let mint := Object [("prim", Str "nat")] in
  let st := start (serving (Object [("entrypoints",
                                     Object [("default", default); ("mint", mint)])])) in
  (GetContractEntrypoints Live "KT1xyz" st).1
    = (Some (<["mint" := Some mint]> (<["default" := Some default]> ∅)), None).
Proof.
  cbv zeta.
  refine (proj1 (@GetContractEntrypoints_unwraps tezos_types micheline_types client Live "KT1xyz" _
                   (mk_eptype (Some (<["mint" := Some (Object [("prim", Str "nat")])]>
                                       (<["default" := Some (Object [("prim", Str "unit")])]>
                                          ∅))))
                   None _ _)).
  reflexivity.
Defined.

(** C6, as stated, fails: the body "-9223372036854775809" is one below the
    least balance; the height-relative balance method fails on it and
    returns the least [int64] with the error, not the zero value. *)
Lemma GetContractBalanceHeight_fails_nonzero :
  let body := Str "-9223372036854775809" in
  let r := (call (Call_GetContractBalanceHeight "tz1abc" 7) Live (start (serving body))).1 in
  r = (-9223372036854775808,
       Some (NumError (strconv.rangeError "ParseInt" "-9223372036854775809"))) /\
  zero_value (Call_GetContractBalanceHeight "tz1abc" 7) = 0 /\
  r.1 <> zero_value (Call_GetContractBalanceHeight "tz1abc" 7).
Proof. repeat split. discriminate. Qed.

(** C7 at the body of the example. *)
Lemma GetBigmapInfo_TotalBytes_12345 :
  let key := Object [("prim", Str "address")] in
  let value := Object [("prim", Str "nat")] in
  let st := start (serving (Object [("key_type", key); ("value_type", value);
                                    ("total_bytes", Str "12345")])) in
  (GetBigmapInfo Live 42 Head st).1
    = (Some (mkBigmapInfo (Some key) (Some value) 12345), None).
Proof.
  cbv zeta.
  refine (proj1 (proj2 (GetBigmapInfo_TotalBytes_quoted Live 42 Head _ _ _ _ _ _ _ _ _ _))
            eq_refl); reflexivity.
Defined.

(** C8 on the sample node, with a cancelled context. *)
Lemma cancelled_context_fails_witness :
  let st := start (serving (Str "1000000")) in
  honours_cancellation (fun ctx _ => done ctx) /\
  done Cancelled = true /\
  exists e,
    (answer (Call_GetContractBalance "tz1abc" Head) Cancelled (world st)).1.2 = Some e /\
    (call (Call_GetContractBalance "tz1abc" Head) Cancelled st).1 = (0, Some e).
Proof.
  cbv zeta. split; [exact sample_honours_cancellation|]. split; [reflexivity|].
  apply (proj1 (proj2 (proj2 (proj2 (proj2 (proj2 (proj2
           (@cancelled_context_fails tezos_types micheline_types client
              (fun ctx _ => done ctx) Z
              (@Call_GetContractBalance tezos_types micheline_types "tz1abc" Head)
              Cancelled (start (serving (Str "1000000")))
              sample_honours_cancellation)))))))).
  reflexivity.
Defined.

(** C9, as stated, fails: a body that is the JSON [null] decodes without an
    error and resets the preallocated sequence: the call succeeds and the
    sequence returned is nil. *)
Lemma sequences_nil_on_success :
  (GetContracts Live Head (start (serving Null))).1 = (None, None) /\
  (GetBigmapKeys Live 42 Head (start (serving Null))).1 = (None, None).
Proof. split; reflexivity. Qed.

(** C9 (amended) at a body that is the empty array. *)
Lemma sequences_returned_as_decoded_witness :
  (GetContracts Live Head (start (serving (Array [])))).1 = (Some [], None) /\
  (GetBigmapKeys Live 42 Head (start (serving (Array [])))).1 = (Some [], None).
Proof.
  split.
  - refine (proj1 (proj2 (proj1 (proj2 sequences_returned_as_decoded Live Head 42
                                   (start (serving (Array []))) _ (Array [])) _))
              eq_refl).
    reflexivity.
  - refine (proj1 (proj2 (proj2 (proj2 sequences_returned_as_decoded Live Head 42
                                   (start (serving (Array []))) _ (Array [])) _))
              eq_refl).
    reflexivity.
Defined.

(** C10 at the body "-5". *)
Lemma GetContractBalance_parse_succeeds_iff_witness :
  let st := start (serving (Str "-5")) in
  transport string ptr_string Live
    "chains/main/blocks/head/context/contracts/tz1abc/balance" ""
    (world st) = (("-5", None), serving (Str "-5")) /\
  (GetContractBalance Live "tz1abc" Head st).1 = (-5, None) /\
  strconv.signed_numeral "-5" = Some (-5).
Proof.
  cbv zeta. split; [reflexivity|].
  pose proof (@GetContractBalance_parse_succeeds_iff tezos_types micheline_types client
                Live "tz1abc" Head (start (serving (Str "-5"))) "-5"
                (serving (Str "-5")) eq_refl) as Hc.
  split.
  - exact (proj1 (proj2 Hc) eq_refl).
  - exact (proj1 (proj1 (proj1 Hc (-5)) (proj1 (proj2 Hc) eq_refl))).
Defined.

End SampleRuns.

(** ** Decimal text and its reading *)

Section Decimal.

Import strconv.

(** The digits [FormatInt] prints are read back by the numeral reading. *)
Lemma digits_string_of_uint (d : Decimal.uint) :
  digits (NilEmpty.string_of_uint d) = true.
Proof. induction d; cbn; auto. Qed.

Lemma decimal_from_string_of_uint_acc (d : Decimal.uint) (acc : positive) :
  decimal_from (Z.pos acc) (NilEmpty.string_of_uint d) = Z.pos (Pos.of_uint_acc d acc).
Proof.
  revert acc. induction d; intros acc; cbn [NilEmpty.string_of_uint decimal_from Pos.of_uint_acc];
    [reflexivity | rewrite <- IHd; f_equal; unfold byte; cbn; lia ..].
Qed.

Lemma decimal_from_string_of_uint (d : Decimal.uint) :
  decimal_from 0 (NilEmpty.string_of_uint d) = Z.of_uint d.
Proof.
  unfold Z.of_uint.
  induction d; cbn [NilEmpty.string_of_uint decimal_from Pos.of_uint];
    [reflexivity | exact IHd | ..];
    match goal with
    | |- decimal_from ?n _ = _ =>
        let k := eval cbv in n in
        change n with k
    end; apply decimal_from_string_of_uint_acc.
Qed.

Lemma numeral_string_of_uint (d : Decimal.uint) :
  numeral (NilZero.string_of_uint d) = Some (Z.of_uint d) /\
  exists c rest, NilZero.string_of_uint d = String c rest /\ is_digit c = true.
Proof.
  destruct d; (split; [| cbn; eauto]).
  1: reflexivity.
  all: unfold NilZero.string_of_uint, numeral;
    match goal with
    | |- context [NilEmpty.string_of_uint ?d] =>
        pose proof (digits_string_of_uint d) as Hd;
        pose proof (decimal_from_string_of_uint d) as Hv
    end;
    cbn [NilEmpty.string_of_uint] in *; rewrite Hd, Hv; reflexivity.
Qed.

Lemma digit_not_sign (c : ascii) :
  is_digit c = true -> Ascii.eqb c "+" = false /\ Ascii.eqb c "-" = false.
Proof.
  intros Hc. split.
  - destruct (Ascii.eqb_spec c "+") as [-> | Hne]; [discriminate | reflexivity].
  - destruct (Ascii.eqb_spec c "-") as [-> | Hne]; [discriminate | reflexivity].
Qed.

(** [FormatInt] prints a numeral that denotes the integer printed. *)
Lemma signed_numeral_FormatInt (i : Z) : signed_numeral (FormatInt i) = Some i.
Proof.
  unfold FormatInt. rewrite <- (DecimalZ.of_to i) at 2.
  destruct (Z.to_int i) as [d | d]; cbn [NilZero.string_of_int Z.of_int].
  - destruct (numeral_string_of_uint d) as [Hn (c & rest & Hs & Hc)].
    rewrite Hs in *. unfold signed_numeral.
    destruct (digit_not_sign c Hc) as [-> ->]. exact Hn.
  - unfold signed_numeral. cbn [Ascii.eqb Bool.eqb].
    destruct (numeral_string_of_uint d) as [-> _]. reflexivity.
Qed.

Lemma strconv_FormatInt_inj (a b : Z) : FormatInt a = FormatInt b -> a = b.
Proof.
  intros Hab. pose proof (signed_numeral_FormatInt a) as Ha.
  rewrite Hab, signed_numeral_FormatInt in Ha. congruence.
Qed.

Lemma ParseInt_FormatInt (i : Z) : in_int64 i -> ParseInt (FormatInt i) = (i, None).
Proof.
  intros [Hlo Hhi]. rewrite (ParseInt_numeral _ i (signed_numeral_FormatInt i)).
  unfold clamp. destruct (Z.leb_spec minInt64 i), (Z.leb_spec i maxInt64); try lia.
  reflexivity.
Qed.

Lemma ParseInt_in_int64 (s : string) : in_int64 (ParseInt s).1.
Proof.
  unfold in_int64. destruct (signed_numeral s) as [v|] eqn:Hs.
  - rewrite (ParseInt_numeral s v Hs). unfold clamp.
    destruct (Z.leb_spec minInt64 v), (Z.leb_spec v maxInt64); cbn [andb fst];
      [lia | destruct (v <? 0); cbn; unfold minInt64, maxInt64; lia ..].
  - destruct (ParseInt_other s Hs) as [-> | [-> | ->]]; cbn;
      unfold minInt64, maxInt64; lia.
Qed.

Lemma ParseInt_error_names (s : string) (e : NumError) :
  (ParseInt s).2 = Some e -> Func e = "ParseInt" /\ Num e = s.
Proof.
  destruct (signed_numeral s) as [v|] eqn:Hs.
  - rewrite (ParseInt_numeral s v Hs). unfold clamp.
    destruct ((minInt64 <=? v) && (v <=? maxInt64)); [discriminate|].
    cbn. intros [= <-]. split; reflexivity.
  - destruct (ParseInt_other s Hs) as [-> | [-> | ->]]; cbn; intros [= <-];
      split; reflexivity.
Qed.

End Decimal.

(** Cancellation for the concatenation of strings. *)
Lemma string_length_app (a b : string) :
  String.length (a +:+ b) = (String.length a + String.length b)%nat.
Proof.
  induction a as [|c a IH]; [reflexivity|].
  change (S (String.length (a +:+ b)) = S (String.length a + String.length b)).
  now rewrite IH.
Qed.

Lemma string_app_inv_head (p x y : string) : p +:+ x = p +:+ y -> x = y.
Proof.
  induction p as [|c p IH]; [auto|].
  change (String c (p +:+ x) = String c (p +:+ y) -> x = y).
  intros [= Heq]. auto.
Qed.

Lemma string_app_inv_tail (s x y : string) : x +:+ s = y +:+ s -> x = y.
Proof.
  revert y. induction x as [|c x IH]; intros [|c' y] Heq.
  - reflexivity.
  - apply (f_equal String.length) in Heq. rewrite !string_length_app in Heq.
    cbn in Heq. lia.
  - apply (f_equal String.length) in Heq. rewrite !string_length_app in Heq.
    cbn in Heq. lia.
  - change (String c (x +:+ s) = String c' (y +:+ s)) in Heq.
    injection Heq as -> Heq. f_equal. auto.
Qed.

(** ** Further properties of the client *)

Section MoreClientFacts.

Import tezos micheline rpc.

Context `{Transport}.

Lemma sent_after_call {R : Type} (op : Op R) (ctx : Ctx) (st : State) :
  sent (call op ctx st).2 = (sent st ++ [mkRequest ctx (spec_path op)])%list.
Proof. now rewrite call_state. Qed.

Lemma same_request_same_path (ctx : Ctx) (st : State) (u u' : string) :
  (sent st ++ [mkRequest ctx u])%list = (sent st ++ [mkRequest ctx u'])%list <-> u = u'.
Proof.
  split; [|now intros ->].
  intros Heq. apply app_inv_head in Heq. now injection Heq.
Qed.

(** X1. The balance methods return a value of the 64-bit signed range,
    whatever the transport answers and whatever string it decoded. *)
Theorem balance_in_int64
    (ctx : Ctx) (addr : Address) (id : BlockID) (height : Z) (st : State) :
  in_int64 (GetContractBalance ctx addr id st).1.1 /\
  in_int64 (GetContractBalanceHeight ctx addr height st).1.1.
Proof.
  assert (Hb : forall id', in_int64 (GetContractBalance ctx addr id' st).1.1).
  { intros id'. rewrite GetContractBalance_run. unfold round_trip.
    destruct (transport _ _ _ _ _ _) as [[bal [e|]] w]; cbn [fst snd].
    - unfold in_int64, minInt64, maxInt64. lia.
    - apply ParseInt_in_int64. }
  split; [apply Hb | apply (Hb (BlockLevel height))].
Qed.

(** X2. A balance the node prints in decimal is read back: when the
    decoded string is the decimal text of an integer [b] of the 64-bit
    signed range, [GetContractBalance] returns [b] and a nil error. *)
Theorem balance_round_trip
    (ctx : Ctx) (addr : Address) (id : BlockID) (st : State) (b : Z) (w : World) :
  transport string ptr_string ctx
    (path_balance (fmt.to_String id) (fmt.to_String addr)) "" (world st)
    = ((strconv.FormatInt b, None), w) ->
  in_int64 b ->
  (GetContractBalance ctx addr id st).1 = (b, None).
Proof.
  intros Hget Hb. rewrite (GetContractBalance_decoded ctx addr id st _ w Hget).
  now rewrite (ParseInt_FormatInt b Hb).
Qed.

(** X3. The methods that return a pointer return nil exactly when they
    return an error: a script or a big-map info is there if and only if the
    error is nil, and it is then the value the transport decoded. *)
Theorem pointer_nil_iff_error
    (ctx : Ctx) (addr : Address) (bigmap : Z) (id : BlockID) (st : State) :
  ((GetContractScript ctx addr st).1.1 = None
     <-> is_Some (GetContractScript ctx addr st).1.2) /\
  ((GetBigmapInfo ctx bigmap id st).1.1 = None
     <-> is_Some (GetBigmapInfo ctx bigmap id st).1.2) /\
  ((GetActiveBigmapInfo ctx bigmap st).1.1 = None
     <-> is_Some (GetActiveBigmapInfo ctx bigmap st).1.2) /\
  (forall (s : Script) (w : World),
     transport Script ptr_Script ctx (path_script (fmt.to_String addr)) NewScript
       (world st) = ((s, None), w) ->
     (GetContractScript ctx addr st).1 = (Some s, None)) /\
  (forall (info : BigmapInfo) (w : World),
     transport BigmapInfo ptr_BigmapInfo ctx
       (path_bigmap_info (fmt.to_String id) (strconv.FormatInt bigmap))
       (mkBigmapInfo Prim_zero Prim_zero 0) (world st) = ((info, None), w) ->
     (GetBigmapInfo ctx bigmap id st).1 = (Some info, None)).
Proof.
  split; [|split; [|split; [|split]]].
  1-3: unfold GetActiveBigmapInfo;
    rewrite ?GetContractScript_run, ?GetBigmapInfo_run; unfold round_trip;
    match goal with
    | |- context [transport ?T ?o ?c ?u ?v ?w] =>
        destruct (transport T o c u v w) as [[? [?|]] ?]
    end; cbn [fst snd].
  1, 3, 5: split; [intros _; unfold is_Some; eexists; reflexivity | reflexivity].
  1-3: split; [discriminate | intros [? ?]; discriminate].
  - intros s w Hg. rewrite GetContractScript_run. unfold round_trip. now rewrite Hg.
  - intros info w Hg. rewrite GetBigmapInfo_run. unfold round_trip. now rewrite Hg.
Qed.

(** X5. Calls compose: two operations run one after the other issue their
    two requests in that order, after the requests issued before, and leave
    the world of the second answer of the transport; the second call sees
    the world the first one left. *)
Theorem two_calls_compose
    {R1 R2 : Type} (op1 : Op R1) (op2 : Op R2) (ctx1 ctx2 : Ctx) (st : State) :
  let st1 := (call op1 ctx1 st).2 in
  let st2 := (call op2 ctx2 st1).2 in
  sent st2
    = (sent st ++ [mkRequest ctx1 (spec_path op1); mkRequest ctx2 (spec_path op2)])%list /\
  world st1 = (answer op1 ctx1 (world st)).2 /\
  world st2 = (answer op2 ctx2 (answer op1 ctx1 (world st)).2).2.
Proof.
  intros st1 st2. subst st1 st2.
  rewrite (call_state op2), (call_state op1). cbn [sent world].
  rewrite <- app_assoc. repeat split.
Qed.

(** X6. Every request stays under the block of the main chain the
    operation names: its path is [chains/main/blocks/], the block segment,
    [/context/], and the rest - a relative path, never another chain. *)
Theorem requests_under_main_chain
    {R : Type} (op : Op R) (ctx : Ctx) (st : State) :
  exists rest : string,
    sent (call op ctx st).2
      = (sent st ++
         [mkRequest ctx
            ("chains/main/blocks/" +:+ spec_block op +:+ "/context/" +:+ rest)])%list.
Proof.
  rewrite sent_after_call.
  destruct op; cbn [spec_path spec_block];
    unfold path_contracts, path_balance, path_script, path_storage, path_entrypoints,
      path_bigmap_keys, path_bigmap_value, path_bigmap_info;
    eexists; reflexivity.
Qed.

(** X7. Distinct big maps and distinct heights never share a request: at
    the same block (and key hash) two big-map identifiers give the same
    request only when they are equal, and so do two heights at the same
    address. *)
Theorem distinct_numbers_distinct_requests
    (ctx : Ctx) (addr : Address) (hash : ExprHash) (id : BlockID) (st : State) (a b : Z) :
  (sent (GetBigmapInfo ctx a id st).2 = sent (GetBigmapInfo ctx b id st).2 <-> a = b) /\
  (sent (GetBigmapKeys ctx a id st).2 = sent (GetBigmapKeys ctx b id st).2 <-> a = b) /\
  (sent (GetBigmapValue ctx a hash id st).2 = sent (GetBigmapValue ctx b hash id st).2
     <-> a = b) /\
  (sent (GetContractsHeight ctx a st).2 = sent (GetContractsHeight ctx b st).2 <-> a = b) /\
  (sent (GetContractBalanceHeight ctx addr a st).2
     = sent (GetContractBalanceHeight ctx addr b st).2 <-> a = b) /\
  (sent (GetContractStorageHeight ctx addr a st).2
     = sent (GetContractStorageHeight ctx addr b st).2 <-> a = b).
Proof.
  pose proof (sent_after_call (Call_GetBigmapInfo a id) ctx st) as Hi.
  pose proof (sent_after_call (Call_GetBigmapInfo b id) ctx st) as Hi'.
  pose proof (sent_after_call (Call_GetBigmapKeys a id) ctx st) as Hk.
  pose proof (sent_after_call (Call_GetBigmapKeys b id) ctx st) as Hk'.
  pose proof (sent_after_call (Call_GetBigmapValue a hash id) ctx st) as Hv.
  pose proof (sent_after_call (Call_GetBigmapValue b hash id) ctx st) as Hv'.
  pose proof (sent_after_call (Call_GetContractsHeight a) ctx st) as Hc.
  pose proof (sent_after_call (Call_GetContractsHeight b) ctx st) as Hc'.
  pose proof (sent_after_call (Call_GetContractBalanceHeight addr a) ctx st) as Hb.
  pose proof (sent_after_call (Call_GetContractBalanceHeight addr b) ctx st) as Hb'.
  pose proof (sent_after_call (Call_GetContractStorageHeight addr a) ctx st) as Hs.
  pose proof (sent_after_call (Call_GetContractStorageHeight addr b) ctx st) as Hs'.
  cbn [call] in *.
  rewrite Hi, Hi', Hk, Hk', Hv, Hv', Hc, Hc', Hb, Hb', Hs, Hs'.
  rewrite !same_request_same_path. cbn [spec_path spec_block].
  unfold path_contracts, path_balance, path_storage,
    path_bigmap_keys, path_bigmap_value, path_bigmap_info.
  repeat split; try (intros ->; reflexivity); intros Heq.
  - do 3 apply string_app_inv_head in Heq. now apply strconv_FormatInt_inj.
  - do 3 apply string_app_inv_head in Heq.
    apply string_app_inv_tail in Heq. now apply strconv_FormatInt_inj.
  - do 3 apply string_app_inv_head in Heq.
    apply (string_app_inv_tail ("/contents/" +:+ fmt.to_String hash)) in Heq.
    now apply strconv_FormatInt_inj.
  - apply string_app_inv_head in Heq.
    apply string_app_inv_tail in Heq. now apply strconv_FormatInt_inj.
  - apply string_app_inv_head in Heq.
    apply (string_app_inv_tail
             ("/context/contracts/" +:+ fmt.to_String addr +:+ "/balance")) in Heq.
    now apply strconv_FormatInt_inj.
  - apply string_app_inv_head in Heq.
    apply (string_app_inv_tail
             ("/context/contracts/" +:+ fmt.to_String addr +:+ "/storage")) in Heq.
    now apply strconv_FormatInt_inj.
Qed.

(** X8. A failed parse of the balance is reported as the [*NumError] of
    [ParseInt] that carries the decoded string: the caller can read from the
    error which text the node sent. *)
Theorem parse_error_names_the_string
    (ctx : Ctx) (addr : Address) (id : BlockID) (st : State) (bal : string) (w : World)
    (e : error Failure) :
  transport string ptr_string ctx
    (path_balance (fmt.to_String id) (fmt.to_String addr)) "" (world st)
    = ((bal, None), w) ->
  (GetContractBalance ctx addr id st).1.2 = Some e ->
  exists kind : strconv.ErrKind,
    e = NumError (strconv.mkNumError "ParseInt" bal kind).
Proof.
  intros Hget. rewrite (GetContractBalance_decoded ctx addr id st bal w Hget).
  cbn [snd]. destruct (strconv.ParseInt bal).2 as [ne|] eqn:Hp; [|discriminate].
  cbn. intros [= <-]. destruct (ParseInt_error_names bal ne Hp) as [Hf Hn].
  destruct ne as [f n k]. cbn in Hf, Hn. subst. eauto.
Qed.

End MoreClientFacts.

(** ** Further runs on the sample node *)

Section MoreSampleRuns.

Import tezos micheline rpc json Sample.

(** X2 at a balance of 1500000. *)
Lemma balance_round_trip_witness :
  let st := start (serving (Str "1500000")) in
  transport string ptr_string Live
    "chains/main/blocks/head/context/contracts/tz1abc/balance" ""
    (world st) = ((strconv.FormatInt 1500000, None), serving (Str "1500000")) /\
  in_int64 1500000 /\
  (GetContractBalance Live "tz1abc" Head st).1 = (1500000, None).
Proof.
  cbv zeta.
  assert (Hr : in_int64 1500000) by (unfold in_int64, minInt64, maxInt64; lia).
  split; [reflexivity|]. split; [exact Hr|].
  exact (@balance_round_trip tezos_types micheline_types client Live "tz1abc" Head
           (start (serving (Str "1500000"))) 1500000 (serving (Str "1500000"))
           eq_refl Hr).
Defined.

(** X8 at a body that is no numeral. *)
Lemma parse_error_names_the_string_witness :
  let st := start (serving (Str "12x")) in
  (GetContractBalance Live "tz1abc" Head st).1.2
    = Some (NumError (strconv.syntaxError "ParseInt" "12x")) /\
  exists kind : strconv.ErrKind,
    NumError (strconv.syntaxError "ParseInt" "12x")
      = @NumError (failure string) (strconv.mkNumError "ParseInt" "12x" kind).
Proof.
  cbv zeta. split; [reflexivity|].
  exact (@parse_error_names_the_string tezos_types micheline_types client Live "tz1abc"
           Head (start (serving (Str "12x"))) "12x" (serving (Str "12x"))
           (NumError (strconv.syntaxError "ParseInt" "12x")) eq_refl eq_refl).
Defined.

End MoreSampleRuns.
